(** * WaniKani level-60 predictor: the prediction and simulation engine

    A shallow embedding of the computational core of [app.js] (and of
    the earlier revisions of the same file that the repository keeps):
    the review-window scheduler, the SRS ladder simulation, run
    segmentation, pace statistics, the level-completion forecast, the
    next-level-up forecast and the speed-up decomposition.

    Modelling conventions.
    - A JavaScript [Date] is its time value: [Some t] with [t] the number
      of milliseconds since the epoch, or [None] for an Invalid Date
      (time value NaN).  Time values are unbounded integers, in the
      scheduler, the simulator and [addDays]; [Clipped] is the scheduler
      with the clip of ECMAScript dates to +-8.64e15 ms, and a property
      that depends on the clip carries a range condition ([within]).
    - Local civil time is a fixed offset [tz] (in ms) from UTC, so that a
      civil day is 86400000 ms long; daylight-saving shifts are outside
      the model.
    - JavaScript numbers that are not integers (durations in days,
      averages, accuracies) are exact rationals [Q]; floating-point
      rounding is outside the model.
    - [Array.prototype.sort] is a stable sort; it is modelled by a stable
      insertion sort driven by the sign of the comparator. *)

From Stdlib Require Import ZArith QArith Qround Qminmax List Lia Lqa Bool String
  Permutation.
From stdpp Require Import gmap sorting.
From Equations Require Import Equations.
Import ListNotations.
Local Open Scope Z_scope.

(** ** Dates *)

Definition Date : Type := option Z.

Definition msPerHour : Z := 3600000.
Definition msPerDay : Z := 86400000.

(** The largest time value of a [Date], 8.64e15 ms; [new Date(v)] and
    the setters give an Invalid Date beyond it, on either side. *)
Definition maxTime : Z := 8640000000000000.

Definition timeClip (v : Z) : Date :=
  if Z.abs v <=? maxTime then Some v else None.

(** [t] is a time value at least [margin] ms inside both ends of the
    range of [Date]. *)
Definition within (margin t : Z) : Prop :=
  - maxTime + margin <= t <= maxTime - margin.

(** [a > b] on dates: false as soon as one side is invalid. *)
Definition date_gt (a b : Date) : bool :=
  match a, b with
  | Some x, Some y => y <? x
  | _, _ => false
  end.

(** [new Date(d.getTime() + h * 3600000)], where [h] may be [undefined]
    (an array read out of range). *)
Definition plusHours (d : Date) (h : option Z) : Date :=
  match d, h with
  | Some t, Some x => Some (t + x * msPerHour)
  | _, _ => None
  end.

Section LocalTime.

(** Offset of local civil time from UTC, in milliseconds. *)
Variable tz : Z.

(** Start (local midnight) of the civil day that contains [t]. *)
Definition localMidnight (t : Z) : Z := (t + tz) / msPerDay * msPerDay - tz.

(** [c.setDate(c.getDate() + k)]: the same wall-clock time [k] civil
    days later. *)
Definition addDate (k : Z) (c : Date) : Date :=
  match c with
  | Some t => Some (t + k * msPerDay)
  | None => None
  end.

(** [c.setHours(h, 0, 0, 0)]. *)
Definition setHours (h : Z) (c : Date) : Date :=
  match c with
  | Some t => Some (localMidnight t + h * msPerHour)
  | None => None
  end.

(** ** Window scheduler *)

Definition REVIEW_WINDOWS : list Z := [9; 18].

(** The inner [for (const h of hours)] loop; [candidate] is mutated by
    each [setHours] and the first candidate later than [d] is returned. *)
Fixpoint scanHours (d candidate : Date) (hours : list Z) : option Date :=
  match hours with
  | [] => None
  | h :: rest =>
      let candidate := setHours h candidate in
      if date_gt candidate d then Some candidate
      else scanHours d candidate rest
  end.

(** The outer [for (dayOffset = 0; dayOffset <= 14; dayOffset++)] loop,
    over the list of the offsets still to be tried. *)
Fixpoint scanDays (d : Date) (offsets : list Z) : option Date :=
  match offsets with
  | [] => None
  | dayOffset :: rest =>
      let candidate := addDate dayOffset d in
      match scanHours d candidate REVIEW_WINDOWS with
      | Some w => Some w
      | None => scanDays d rest
      end
  end.

Definition dayOffsets : list Z := List.map Z.of_nat (seq 0 15).

Definition nextWindow (availableAt : Date) : Date :=
  let d := availableAt in
  match scanDays d dayOffsets with
  | Some w => w
  | None => d (* fallback *)
  end.

(** An instant falls on a review window when its local time of day is
    one of the configured clock hours. *)
Definition onWindow (w : Z) : Prop :=
  exists h, In h REVIEW_WINDOWS /\ (w + tz) mod msPerDay = h * msPerHour.

(** The window that the scan of [nextWindow] reaches, by the local time
    of day of its input. *)
Definition firstWindowAfter (t : Z) : Z :=
  let m := localMidnight t in
  if t <? m + 9 * msPerHour then m + 9 * msPerHour
  else if t <? m + 18 * msPerHour then m + 18 * msPerHour
  else m + msPerDay + 9 * msPerHour.

(** ** Ladder simulator *)

Definition SRS_INTERVALS_H : list Z := [4; 8; 23; 47; 167; 335; 719; 2879].

(** [SRS_INTERVALS_H[stage]]: [undefined] outside the array. *)
Definition intervalAt (stage : Z) : option Z :=
  if stage <? 0 then None else nth_error SRS_INTERVALS_H (Z.to_nat stage).

Equations? simulateToGuru (startDate : Date) (currentStage : Z) : Date
  by wf (Z.to_nat (4 - currentStage)) lt :=
  simulateToGuru reviewDate stage with Z_lt_dec stage 4 => {
    | left _ =>
        let availableAt := plusHours reviewDate (intervalAt stage) in
        simulateToGuru (nextWindow availableAt) (stage + 1)
    | right _ => reviewDate }.
Proof. lia. Qed.

(** Operational reading of the [while (stage < 4)] loop of
    [simulateToGuru], used to count its iterations.  A state of the loop
    is the pair of its two variables, [(reviewDate, stage)]. *)
Definition loopBody (s : Date * Z) : Date * Z :=
  let '(reviewDate, stage) := s in
  (nextWindow (plusHours reviewDate (intervalAt stage)), stage + 1).

Inductive whileRuns : nat -> Date * Z -> Date * Z -> Prop :=
| run_exit s : ~ snd s < 4 -> whileRuns 0 s s
| run_iter n s s' :
    snd s < 4 -> whileRuns n (loopBody s) s' -> whileRuns (S n) s s'.

End LocalTime.

(** ** The window scheduler with the time clip

    The same scan, where [setDate] and [setHours] leave an Invalid Date
    behind as soon as the time value they compute is outside the range
    of [Date]; an invalid [candidate] stays invalid through the later
    [setHours] of its day. *)

Module Clipped.

Section LocalTime.

Variable tz : Z.

Definition addDate (k : Z) (c : Date) : Date :=
  match c with
  | Some t => timeClip (t + k * msPerDay)
  | None => None
  end.

Definition setHours (h : Z) (c : Date) : Date :=
  match c with
  | Some t => timeClip (localMidnight tz t + h * msPerHour)
  | None => None
  end.

Fixpoint scanHours (d candidate : Date) (hours : list Z) : option Date :=
  match hours with
  | [] => None
  | h :: rest =>
      let candidate := setHours h candidate in
      if date_gt candidate d then Some candidate
      else scanHours d candidate rest
  end.

Fixpoint scanDays (d : Date) (offsets : list Z) : option Date :=
  match offsets with
  | [] => None
  | dayOffset :: rest =>
      let candidate := addDate dayOffset d in
      match scanHours d candidate REVIEW_WINDOWS with
      | Some w => Some w
      | None => scanDays d rest
      end
  end.

Definition nextWindow (availableAt : Date) : Date :=
  let d := availableAt in
  match scanDays d dayOffsets with
  | Some w => w
  | None => d (* fallback *)
  end.

End LocalTime.

End Clipped.

(** ** Sorting

    [arr.sort(comparefn)]: a stable sort.  [cmp a b] is the number that
    [comparefn(a, b)] returns ([None] for NaN, which [sort] reads as 0);
    an element moves in front of another only when the comparator is
    positive the other way round. *)

Definition keepsOrder (c : option Q) : bool :=
  match c with
  | Some v => Qle_bool v 0
  | None => true
  end.

Section Sort.

Context {A : Type}.
Variable cmp : A -> A -> option Q.

Fixpoint insertSorted (x : A) (l : list A) : list A :=
  match l with
  | [] => [x]
  | y :: rest =>
      if keepsOrder (cmp x y) then x :: y :: rest
      else y :: insertSorted x rest
  end.

Fixpoint sortBy (l : list A) : list A :=
  match l with
  | [] => []
  | x :: rest => insertSorted x (sortBy rest)
  end.

(** [precedes x y]: the sort leaves [x] in front of [y]. *)
Definition precedes (x y : A) : Prop := keepsOrder (cmp x y) = true.

End Sort.

(** ** Level progressions *)

(** The [data] of one level progression.  A timestamp field is [null]
    ([None]) or a well-formed timestamp. *)
Record progression : Type := Progression {
  level : Z;
  started_at : option Z;
  passed_at : option Z;
  abandoned_at : option Z
}.

(** [new Date(x)] for a timestamp field: [new Date(null)] is the epoch. *)
Definition newDate (x : option Z) : Z :=
  match x with
  | Some t => t
  | None => 0
  end.

(** A timestamp field used as a condition. *)
Definition truthy (x : option Z) : bool :=
  match x with
  | Some _ => true
  | None => false
  end.

Definition Zq (z : Z) : option Q := Some (inject_Z z).

(** [(a, b) => new Date(a.data.started_at) - new Date(b.data.started_at)] *)
Definition cmpStartedAt (a b : progression) : option Q :=
  Zq (newDate (started_at a) - newDate (started_at b)).

(** [(a, b) => a.data.level - b.data.level] *)
Definition cmpLevel (a b : progression) : option Q :=
  Zq (level a - level b).

Definition startedMs (p : progression) : Z := newDate (started_at p).

(** The [for (const p of sorted)] loop of [getCurrentRunStart]. *)
Fixpoint walkRun (runStartDate prevLevel : Z) (sorted : list progression) : Z :=
  match sorted with
  | [] => runStartDate
  | p :: rest =>
      let runStartDate :=
        if (level p <=? prevLevel) && (level p <=? 5)
        then newDate (started_at p) else runStartDate in
      walkRun runStartDate (level p) rest
  end.

(** [null] ([None]) for an empty history. *)
Definition getCurrentRunStart (progressions : list progression) : option Z :=
  match progressions with
  | [] => None
  | _ :: _ =>
      let sorted := sortBy cmpStartedAt progressions in
      match sorted with
      | p0 :: _ => Some (walkRun (newDate (started_at p0)) 0 sorted)
      | [] => None (* not reached: [sorted] is as long as [progressions] *)
      end
  end.

(** [new Date(p.data.started_at) >= runStart]; a [null] run start
    compares as the number 0. *)
Definition sinceRunStart (runStart : option Z) (p : progression) : bool :=
  match runStart with
  | Some r => r <=? newDate (started_at p)
  | None => 0 <=? newDate (started_at p)
  end.

(** The first two statements of [computeStats]: the attempts of the
    current run. *)
Definition currentRun (progressions : list progression) : list progression :=
  let runStart := getCurrentRunStart progressions in
  List.filter (sinceRunStart runStart) progressions.

(** [p.data.passed_at && !p.data.abandoned_at && p.data.level < currentLevel] *)
Definition isDone (currentLevel : Z) (p : progression) : bool :=
  truthy (passed_at p) && negb (truthy (abandoned_at p)) && (level p <? currentLevel).

(** ** Pace statistics *)

Local Open Scope Q_scope.

Record paceStats : Type := PaceStats {
  avg : Q;
  median : Q;
  fast : Q;
  slow : Q;
  recent : Q;
  durs : list Q;
  sorted : list Q;
  done : list progression
}.

(** [(new Date(p.data.passed_at) - new Date(p.data.started_at)) / 864e5] *)
Definition durationDays (p : progression) : Q :=
  inject_Z (newDate (passed_at p) - newDate (started_at p)) / inject_Z msPerDay.

(** [(a, b) => a - b] *)
Definition ascending (a b : Q) : option Q := Some (a - b).

(** [l.reduce((s, d) => s + d, 0)] *)
Definition sumQ (l : list Q) : Q := fold_left Qplus l 0.

(** [l[i]] for an index that lies inside [l]. *)
Definition at_ (l : list Q) (i : nat) : Q := nth i l 0.

(** [a || b] on numbers: [b] when [a] is zero. *)
Definition orElse (a b : Q) : Q := if Qeq_bool a 0 then b else a.

(** [l.slice(-5)] *)
Definition lastFive (l : list Q) : list Q := skipn (length l - 5) l.

Definition lengthQ {A : Type} (l : list A) : Q := inject_Z (Z.of_nat (length l)).

(** The statements of [computeStats] from [const durs] on, the same in
    every revision.  [Math.floor(n / 2)], [Math.floor(n * 0.25)] and
    [Math.floor(n * 0.75)] are the integer quotients [n / 2], [n / 4] and
    [3 * n / 4]. *)
Definition summarize (done : list progression) : paceStats :=
  let durs := List.map durationDays done in
  let sorted := sortBy ascending durs in
  let n := length sorted in
  let avg := sumQ durs / lengthQ durs in
  let median := at_ sorted (n / 2) in
  let fast := orElse (at_ sorted (n / 4)) (at_ sorted 0) in
  let slow := orElse (at_ sorted (3 * n / 4)) (at_ sorted (n - 1)) in
  let rec := lastFive durs in
  let recent := sumQ rec / lengthQ rec in
  {| avg := avg; median := median; fast := fast; slow := slow;
     recent := recent; durs := durs; sorted := sorted; done := done |}.

(** [null] is [None]. *)
Definition computeStats (progressions : list progression) (currentLevel : Z)
  : option paceStats :=
  let currentRun := currentRun progressions in
  let done := List.filter (isDone currentLevel) currentRun in
  if (length done <? 2)%nat then None
  else
    let done := sortBy cmpLevel done in
    Some (summarize done).

Local Close Scope Q_scope.

(** ** The revision that keeps the latest attempt of each level *)

Module LatestRun.

(** One step of the [for (const p of progressions)] loop: [byLevel] is
    the object used as a map from level to progression. *)
Definition keepLatest (byLevel : gmap Z progression) (p : progression)
  : gmap Z progression :=
  let lvl := level p in
  match byLevel !! lvl with
  | None => <[lvl := p]> byLevel
  | Some q =>
      if newDate (started_at q) <? newDate (started_at p)
      then <[lvl := p]> byLevel else byLevel
  end.

(** Every entry of the map sits under its own level. *)
Definition keyed (m : gmap Z progression) : Prop :=
  forall k p, m !! k = Some p -> level p = k.

(** [Object.values(byLevel)] lists one progression per level; the sort
    by level that follows fixes their order. *)
Definition getLatestRun (progressions : list progression) : list progression :=
  let byLevel := fold_left keepLatest progressions ∅ in
  sortBy cmpLevel (List.map snd (map_to_list byLevel)).

Definition computeStats (progressions : list progression) (currentLevel : Z)
  : option paceStats :=
  let latest := getLatestRun progressions in
  let done := List.filter (isDone currentLevel) latest in
  if (length done <? 2)%nat then None
  else Some (summarize done).

End LatestRun.

(** ** Sample histories and the qualifying condition *)

(** The five completed attempts of the scenario: levels 1 to 5, lasting
    5, 7, 7, 9 and 20 days, one after the other. *)
Definition scenarioAttempt (lvl startDay days : Z) : progression :=
  {| level := lvl;
     started_at := Some (startDay * msPerDay);
     passed_at := Some ((startDay + days) * msPerDay);
     abandoned_at := None |}.

Definition scenario : list progression :=
  [scenarioAttempt 1 0 5; scenarioAttempt 2 5 7; scenarioAttempt 3 12 7;
   scenarioAttempt 4 19 9; scenarioAttempt 5 28 20].

(** Two completed attempts, lasting 1 and 2 days. *)
Definition twoAttempts : list progression :=
  [scenarioAttempt 1 0 1; scenarioAttempt 2 1 2].

(** An attempt qualifies for the statistics when it was passed, was not
    abandoned, and lies below the current level. *)
Definition qualifies (currentLevel : Z) (p : progression) : Prop :=
  is_Some (passed_at p) /\ abandoned_at p = None /\ level p < currentLevel.

(** ** Assignments and the next-level-up forecast *)

Module Assignment.

(** The [data] of one assignment.  [srs_stage] is a stage number of the
    API, never negative. *)
Record data : Type := Data {
  subject_type : string;
  srs_stage : N;
  burned_at : option Z;
  started_at : option Z;
  available_at : option Z
}.

End Assignment.

(** One element of [guruDates]. *)
Record guruEntry : Type := GuruEntry {
  guruDate : Date;
  stage : N;
  type : string;
  availableAt : Z
}.

Record nextLevel : Type := NextLevel {
  levelUpDate : Date;
  blockingCount : nat;
  criticalItem : option guruEntry;
  (** [undefined] when nothing blocks; else (stage, count, label). *)
  stageBreakdown : option (list (N * nat * string))
}.

(** [a - b] on dates: NaN when one side is invalid. *)
Definition dateDiff (a b : Date) : option Q :=
  match a, b with
  | Some x, Some y => Zq (x - y)
  | _, _ => None
  end.

(** [(a, b) => b.guruDate - a.guruDate] *)
Definition latestFirst (a b : guruEntry) : option Q :=
  dateDiff (guruDate b) (guruDate a).

(** [(a, b) => a.guruDate - b.guruDate] *)
Definition earliestFirst (a b : guruEntry) : option Q :=
  dateDiff (guruDate a) (guruDate b).

(** [l[i].guruDate] for an index inside [l]. *)
Definition entryDate (e : option guruEntry) : Date :=
  match e with
  | Some g => guruDate g
  | None => None (* not reached *)
  end.

Definition isBlocking (a : Assignment.data) : bool :=
  (String.eqb (Assignment.subject_type a) "radical"
   || String.eqb (Assignment.subject_type a) "kanji")
  && (Z.of_N (Assignment.srs_stage a) <? 4)
  && negb (truthy (Assignment.burned_at a))
  && truthy (Assignment.started_at a).

Definition stageLabels : list (N * string) :=
  [(0%N, "App 1"%string); (1%N, "App 2"%string);
   (2%N, "App 3"%string); (3%N, "App 4"%string)].

Section NextLevel.

Variable tz : Z.

(** The body of [blocking.map(a => ...)]; [now] is [new Date()]. *)
Definition toGuru (now : Z) (a : Assignment.data) : guruEntry :=
  let stage := Assignment.srs_stage a in
  let availableAt :=
    match Assignment.available_at a with
    | Some t => t
    | None => now
    end in
  let startFrom := if availableAt <=? now then now else availableAt in
  let guruDate := simulateToGuru tz (Some startFrom) (Z.of_N stage) in
  {| guruDate := guruDate; stage := stage;
     type := Assignment.subject_type a; availableAt := availableAt |}.

(** [Math.max(0, n - 1 - idx)] as a list index. *)
Definition percentileIndex (n idx : nat) : nat :=
  Z.to_nat (Z.max 0 (Z.of_nat n - 1 - Z.of_nat idx)).

(** [Math.floor(n * 0.1)] is the integer quotient [n / 10]. *)
Definition computeNextLevel (now : Z) (assignments : list Assignment.data)
  : nextLevel :=
  let blocking := List.filter isBlocking assignments in
  if (length blocking =? 0)%nat then
    {| levelUpDate := nextWindow tz (Some now);
       blockingCount := 0;
       criticalItem := None;
       stageBreakdown := None |}
  else
    let guruDates := sortBy latestFirst (List.map (toGuru now) blocking) in
    let kanjiItems := List.filter (fun g => String.eqb (type g) "kanji") guruDates in
    let radicalItems := List.filter (fun g => String.eqb (type g) "radical") guruDates in
    let levelUpDate :=
      if (0 <? length kanjiItems)%nat then
        let idx := (length kanjiItems / 10)%nat in
        let sortedKanji := sortBy earliestFirst kanjiItems in
        entryDate (nth_error sortedKanji (percentileIndex (length sortedKanji) idx))
      else
        entryDate (head guruDates) in
    let criticalItem := head guruDates in
    {| levelUpDate := levelUpDate;
       blockingCount := length blocking;
       criticalItem := criticalItem;
       stageBreakdown :=
         Some (List.filter (fun s => (0 <? snd (fst s))%nat)
                 (List.map (fun s =>
                    (fst s,
                     length (List.filter
                               (fun a => N.eqb (Assignment.srs_stage a) (fst s))
                               blocking),
                     snd s))
                    stageLabels)) |}.

End NextLevel.

(** ** Process-wide state *)

Record globals : Type := Globals {
  _stats : option paceStats;
  _currentLevel : Z;
  _activePace : string
}.

(** ** Level-completion forecast *)

(** The integer part of a number, as [new Date(number)] takes it. *)
Definition truncQ (q : Q) : Z := Z.quot (Qnum q) (Zpos (Qden q)).

(** [addDays(d, n) = new Date(d.getTime() + n * 864e5)]; [n] is [None]
    when it is NaN. *)
Definition addDays (d : Date) (n : option Q) : Date :=
  match d, n with
  | Some t, Some x => Some (truncQ (inject_Z t + x * inject_Z msPerDay)%Q)
  | _, _ => None
  end.

(** [addDays(new Date(), left * pace)] with [left = 60 - _currentLevel]. *)
Definition forecast (currentLevel now : Z) (paceDays : Q) : Date :=
  let left := 60 - currentLevel in
  addDays (Some now) (Some (inject_Z left * paceDays)%Q).

(** What a property read finds: a number, a function or an object, or
    nothing. *)
Inductive value : Type :=
| Number (v : Q)
| Object
| Undefined.

(** The names that an object literal inherits from [Object.prototype];
    each of them holds a function, [__proto__] holds the prototype
    object. *)
Definition OBJECT_PROTOTYPE_KEYS : list string :=
  ["constructor"; "hasOwnProperty"; "isPrototypeOf"; "propertyIsEnumerable";
   "toLocaleString"; "toString"; "valueOf"; "__proto__";
   "__defineGetter__"; "__defineSetter__";
   "__lookupGetter__"; "__lookupSetter__"]%string.

(** [paceMap[key]]: one of the five figures, an inherited property, or
    [undefined]. *)
Definition paceMap (stats : paceStats) (key : string) : value :=
  if String.eqb key "fast" then Number (fast stats)
  else if String.eqb key "median" then Number (median stats)
  else if String.eqb key "avg" then Number (avg stats)
  else if String.eqb key "slow" then Number (slow stats)
  else if String.eqb key "recent" then Number (recent stats)
  else if existsb (String.eqb key) OBJECT_PROTOTYPE_KEYS then Object
  else Undefined.

(** [x || y]: 0 and [undefined] are falsy, an object is truthy. *)
Definition orDefault (x : value) (y : Q) : value :=
  match x with
  | Number v => Number (orElse v y)
  | Object => Object
  | Undefined => Number y
  end.

(** [left * x]: NaN ([None]) when [x] is not a number. *)
Definition times (left : Z) (x : value) : option Q :=
  match x with
  | Number v => Some (inject_Z left * v)%Q
  | _ => None
  end.

(** The four dates that [updatePrediction] computes and displays. *)
Record prediction : Type := Prediction {
  predDate : Date;
  fastDate : Date;
  midDate : Date;
  slowDate : Date
}.

(** [updatePrediction()], whose four [new Date()] read the clock at
    [t1], [t2], [t3] and [t4]; [None] when [_stats] is not set and
    nothing is displayed. *)
Definition updatePredictionAt (g : globals) (t1 t2 t3 t4 : Z)
  : option prediction :=
  match _stats g with
  | None => None
  | Some stats =>
      let left := 60 - _currentLevel g in
      let dpL := orDefault (paceMap stats (_activePace g)) (median stats) in
      Some {| predDate := addDays (Some t1) (times left dpL);
              fastDate := forecast (_currentLevel g) t2 (fast stats);
              midDate := forecast (_currentLevel g) t3 (median stats);
              slowDate := forecast (_currentLevel g) t4 (slow stats) |}
  end.


(** ** Speed-up decomposition *)

(** The [data] of one review statistic: four answer counters. *)
Record reviewStat : Type := ReviewStat {
  meaning_correct : Z;
  meaning_incorrect : Z;
  reading_correct : Z;
  reading_incorrect : Z
}.

(** [Math.max(0, x)]; NaN when [x] is. *)
Definition max0 (x : option Q) : option Q :=
  match x with
  | Some v => Some (Qmax 0 v)
  | None => None
  end.

(** The [for (const rs of reviewStats)] loop of [computeSpeedup]: the
    pair [(correct, incorrect)]. *)
Definition tally (reviewStats : list reviewStat) : Z * Z :=
  fold_left
    (fun acc rs =>
       (fst acc + (meaning_correct rs + reading_correct rs),
        snd acc + (meaning_incorrect rs + reading_incorrect rs)))
    reviewStats (0, 0).

Record speedup : Type := Speedup {
  accuracy : Q;
  total : Z;
  incorrect : Z;
  extraDaysPerLevel : Q;
  windowLostPerLevel : option Q
}.

Section Speedup.

Variable tz : Z.

(** Returns the pair of [days] and [levelUpDate]; [days] is NaN
    ([None]) when a date is invalid. *)
Definition calcWindowLevelDays (lessonTime : Date) : option Q * Date :=
  let radicalGuruDate := simulateToGuru tz lessonTime 0 in
  let kanjiGuruDate := simulateToGuru tz radicalGuruDate 0 in
  let levelUpDate := kanjiGuruDate in
  let days :=
    match dateDiff levelUpDate lessonTime with
    | Some v => Some (v / inject_Z msPerDay)%Q
    | None => None
    end in
  (days, levelUpDate).

(** Returns the pair of [windowDaysPerLevel] and [windowDate]. *)
Definition calcWindowRoadTo60 (g : globals) (now : Z) : option Q * Date :=
  let left := 60 - _currentLevel g in
  let firstLesson := nextWindow tz (Some now) in
  let windowDaysPerLevel := fst (calcWindowLevelDays firstLesson) in
  let windowDate :=
    addDays (Some now)
      match windowDaysPerLevel with
      | Some v => Some (inject_Z left * v)%Q
      | None => None
      end in
  (windowDaysPerLevel, windowDate).

(** [computeSpeedup(reviewStats)] reads the global [_stats]; reading
    [_stats.median] while [_stats] is [null] throws ([None]). *)
Definition computeSpeedup (g : globals) (now : Z) (reviewStats : list reviewStat)
  : option speedup :=
  let '(correct, incorrect) := tally reviewStats in
  let total := correct + incorrect in
  let accuracy :=
    (if 0 <? total then inject_Z correct / inject_Z total * 100 else 100)%Q in
  let avgIntervalHours := 20.5%Q in
  let estReviewsPerLevel := 100%Q in
  let incorrectRate :=
    (if 0 <? total then inject_Z incorrect / inject_Z total else 0)%Q in
  let extraHoursPerLevel := (incorrectRate * estReviewsPerLevel * avgIntervalHours)%Q in
  let extraDaysPerLevel := (extraHoursPerLevel / 24)%Q in
  match _stats g with
  | None => None
  | Some stats =>
      let windowLostPerLevel :=
        max0 match fst (calcWindowRoadTo60 g now) with
             | Some w => Some (median stats - w)%Q
             | None => None
             end in
      Some {| accuracy := accuracy; total := total; incorrect := incorrect;
              extraDaysPerLevel := extraDaysPerLevel;
              windowLostPerLevel := windowLostPerLevel |}
  end.

End Speedup.

(** ** The revision with a fixed minimum pace *)

Module FixedMinimum.

Definition MINIMUM_DAYS_PER_LEVEL : Q := 3.42%Q.

Record speedup : Type := Speedup {
  accuracy : Q;
  total : Z;
  incorrect : Z;
  extraDaysPerLevel : Q;
  windowLostPerLevel : Q;
  realisticBestDays : Q
}.

Definition computeSpeedup (g : globals) (reviewStats : list reviewStat)
  : option speedup :=
  let '(correct, incorrect) := tally reviewStats in
  let total := correct + incorrect in
  let accuracy :=
    (if 0 <? total then inject_Z correct / inject_Z total * 100 else 100)%Q in
  let avgIntervalHours := 20.5%Q in
  let estReviewsPerLevel := 100%Q in
  let incorrectRate :=
    (if 0 <? total then inject_Z incorrect / inject_Z total else 0)%Q in
  let extraHoursPerLevel := (incorrectRate * estReviewsPerLevel * avgIntervalHours)%Q in
  let extraDaysPerLevel := (extraHoursPerLevel / 24)%Q in
  match _stats g with
  | None => None
  | Some stats =>
      let windowLostPerLevel := Qmax 0 (median stats - MINIMUM_DAYS_PER_LEVEL) in
      let sleepBufferDays := 0.5%Q in
      let realisticBestDays := (MINIMUM_DAYS_PER_LEVEL + sleepBufferDays)%Q in
      Some {| accuracy := accuracy; total := total; incorrect := incorrect;
              extraDaysPerLevel := extraDaysPerLevel;
              windowLostPerLevel := windowLostPerLevel;
              realisticBestDays := realisticBestDays |}
  end.

End FixedMinimum.

(** ** The revision with the blended saving *)

Module Blended.

Local Open Scope Q_scope.

Definition MINIMUM_DAYS_PER_LEVEL : Q := 3.42.
Definition AVG_EXTRA_HOURS_PER_MISTAKE : Q := 20.5.

(** The variables that the loop over [reviewStats] updates. *)
Record totals : Type := Totals {
  totalMeaningIncorrect : Z;
  totalReadingIncorrect : Z;
  totalMeaningCorrect : Z;
  totalReadingCorrect : Z;
  totalExtraHours : Q;
  leechCount : Z
}.

Definition addReviewStat (t : totals) (d : reviewStat) : totals :=
  let totalWrong := (meaning_incorrect d + reading_incorrect d)%Z in
  {| totalMeaningIncorrect := totalMeaningIncorrect t + meaning_incorrect d;
     totalReadingIncorrect := totalReadingIncorrect t + reading_incorrect d;
     totalMeaningCorrect := totalMeaningCorrect t + meaning_correct d;
     totalReadingCorrect := totalReadingCorrect t + reading_correct d;
     totalExtraHours :=
       totalExtraHours t + inject_Z totalWrong * AVG_EXTRA_HOURS_PER_MISTAKE;
     leechCount := if (4 <=? totalWrong)%Z then leechCount t + 1 else leechCount t |}.

(** The returned object; [leechCountOut] is its [leechCount]. *)
Record speedup : Type := Speedup {
  windowLostPerLevel : Q;
  windowSavingTotal : Q;
  mistakeDaysLostPerLevel : Q;
  mistakeSavingTotal : Q;
  combinedSaving : Q;
  overallAcc : Q;
  totalWrong : Z;
  totalAnswers : Z;
  leechCountOut : Z
}.

(** [computeSpeedup(reviewStats, stats)]; [currentLevel] is the global
    [_currentLevel]. *)
Definition computeSpeedup (currentLevel : Z)
    (reviewStats : list reviewStat) (stats : paceStats) : speedup :=
  let median := median stats in
  let left := inject_Z (60 - currentLevel) in
  let windowLostPerLevel := Qmax 0 (median - MINIMUM_DAYS_PER_LEVEL) in
  let windowSavingTotal := windowLostPerLevel * left in
  let t := fold_left addReviewStat reviewStats
             {| totalMeaningIncorrect := 0; totalReadingIncorrect := 0;
                totalMeaningCorrect := 0; totalReadingCorrect := 0;
                totalExtraHours := 0; leechCount := 0 |} in
  let totalAnswers :=
    (totalMeaningCorrect t + totalReadingCorrect t +
     totalMeaningIncorrect t + totalReadingIncorrect t)%Z in
  let totalWrong := (totalMeaningIncorrect t + totalReadingIncorrect t)%Z in
  let overallAcc :=
    if (0 <? totalAnswers)%Z
    then inject_Z (totalAnswers - totalWrong) / inject_Z totalAnswers * 100
    else 100 in
  let mistakeDaysLost := totalExtraHours t / 24 in
  let mistakeDaysLostPerLevel :=
    if (0 <? length (done stats))%nat
    then mistakeDaysLost / lengthQ (done stats)
    else 0 in
  let mistakeSavingTotal := mistakeDaysLostPerLevel * left in
  let combinedSaving :=
    Qmax windowSavingTotal mistakeSavingTotal +
    Qmin windowSavingTotal mistakeSavingTotal * 0.4 in
  {| windowLostPerLevel := windowLostPerLevel;
     windowSavingTotal := windowSavingTotal;
     mistakeDaysLostPerLevel := mistakeDaysLostPerLevel;
     mistakeSavingTotal := mistakeSavingTotal;
     combinedSaving := combinedSaving;
     overallAcc := overallAcc;
     totalWrong := totalWrong;
     totalAnswers := totalAnswers;
     leechCountOut := leechCount t |}.

End Blended.

(** ** Sample states and auxiliary notions *)

(** The statistics of the scenario. *)
Definition scenarioStats : paceStats := summarize scenario.

(** The process-wide state of a learner at [currentLevel] whose
    statistics are those of the scenario. *)
Definition scenarioGlobals (currentLevel : Z) : globals :=
  {| _stats := Some scenarioStats; _currentLevel := currentLevel;
     _activePace := "median" |}.

(** Two completed attempts of 20 days each. *)
Definition slowAttempts : list progression :=
  [scenarioAttempt 1 0 20; scenarioAttempt 2 20 20].


(** ** Notions used to state the next-level-up forecast *)

(** The time value of the mastery date of an entry (0 if invalid), and
    the two comparators of [computeNextLevel] on time values. *)
Definition dateMs (g : guruEntry) : Z :=
  match guruDate g with
  | Some t => t
  | None => 0
  end.

Definition earliestMs (a b : guruEntry) : option Q := Zq (dateMs a - dateMs b).
Definition latestMs (a b : guruEntry) : option Q := Zq (dateMs b - dateMs a).

Definition isKanji (a : Assignment.data) : bool :=
  String.eqb (Assignment.subject_type a) "kanji".
Definition isRadical (a : Assignment.data) : bool :=
  String.eqb (Assignment.subject_type a) "radical".

(** Three started items of the current level: two kanji and a radical. *)
Definition sampleAssignments : list Assignment.data :=
  [ {| Assignment.subject_type := "kanji"; Assignment.srs_stage := 0%N;
       Assignment.burned_at := None; Assignment.started_at := Some 0;
       Assignment.available_at := None |};
    {| Assignment.subject_type := "kanji"; Assignment.srs_stage := 2%N;
       Assignment.burned_at := None; Assignment.started_at := Some 0;
       Assignment.available_at := Some (30 * msPerHour) |};
    {| Assignment.subject_type := "radical"; Assignment.srs_stage := 3%N;
       Assignment.burned_at := None; Assignment.started_at := Some 0;
       Assignment.available_at := Some (2 * msPerHour) |} ].


(** ** Notions used to state further properties *)

(** Hours of waiting that the interval table imposes from [stage] up to
    Guru: the sum of [SRS_INTERVALS_H[stage .. 3]]. *)
Definition remainingHours (stage : nat) : Z :=
  fold_right Z.add 0 (skipn stage (firstn 4 SRS_INTERVALS_H)).


(** The next review of an assignment, when it has one, is due at least
    [margin] ms inside the range of [Date]. *)
Definition dueWithin (margin : Z) (a : Assignment.data) : Prop :=
  match Assignment.available_at a with
  | Some v => within margin v
  | None => True
  end.

(** The levels of [l] rise strictly, starting above [prev]. *)
Fixpoint risingLevels (prev : Z) (l : list progression) : Prop :=
  match l with
  | [] => True
  | p :: rest => prev < level p /\ risingLevels (level p) rest
  end.


(** A history with a reset: levels 1 and 2, then level 1 and level 2
    once more. *)
Definition resetHistory : list progression :=
  [scenarioAttempt 1 0 5; scenarioAttempt 2 5 7;
   scenarioAttempt 1 12 4; scenarioAttempt 2 16 6].


(** What the loop of [getLatestRun] has stored after its input [seen]:
    for each level met, an attempt of that level that no attempt of the
    level met so far started after. *)
Definition latestOf (seen : list progression) (m : gmap Z progression) : Prop :=
  (forall k p, m !! k = Some p ->
     In p seen /\ level p = k /\
     forall q, In q seen -> level q = k -> startedMs q <= startedMs p) /\
  (forall q, In q seen -> is_Some (m !! level q)).


(** The counters of a review statistic are counts: none is negative. *)
Definition counts (d : reviewStat) : Prop :=
  0 <= meaning_correct d /\ 0 <= meaning_incorrect d /\
  0 <= reading_correct d /\ 0 <= reading_incorrect d.

(** The sum of a counter expression over the review statistics. *)
Definition sumOf (f : reviewStat -> Z) (reviewStats : list reviewStat) : Z :=
  fold_right (fun d acc => f d + acc) 0 reviewStats.

Definition correctOf (d : reviewStat) : Z := meaning_correct d + reading_correct d.
Definition wrongOf (d : reviewStat) : Z := meaning_incorrect d + reading_incorrect d.


(** Three review statistics: one without a mistake, one with three
    wrong answers, one with five. *)
Definition sampleReviewStats : list reviewStat :=
  [ {| meaning_correct := 8; meaning_incorrect := 0;
       reading_correct := 7; reading_incorrect := 0 |};
    {| meaning_correct := 5; meaning_incorrect := 1;
       reading_correct := 6; reading_incorrect := 2 |};
    {| meaning_correct := 9; meaning_incorrect := 3;
       reading_correct := 4; reading_incorrect := 2 |} ].


(** * Properties *)

(** ** Window scheduler *)

Section WindowFacts.

Variable tz : Z.

Lemma localMidnight_bounds (t : Z) :
  localMidnight tz t <= t < localMidnight tz t + msPerDay.
Proof.
  unfold localMidnight, msPerDay.
  pose proof (Z.div_mod (t + tz) 86400000 ltac:(lia)).
  pose proof (Z.mod_pos_bound (t + tz) 86400000 ltac:(lia)).
  lia.
Qed.

Lemma localMidnight_shift (t k : Z) :
  localMidnight tz (t + k * msPerDay) = localMidnight tz t + k * msPerDay.
Proof.
  unfold localMidnight.
  replace (t + k * msPerDay + tz) with (t + tz + k * msPerDay) by lia.
  rewrite Z.div_add by (unfold msPerDay; lia). lia.
Qed.

Lemma localMidnight_mod (t : Z) :
  (t + tz) mod msPerDay = t - localMidnight tz t.
Proof.
  unfold localMidnight, msPerDay.
  pose proof (Z.div_mod (t + tz) 86400000 ltac:(lia)). lia.
Qed.

Lemma localMidnight_idem (t h : Z) :
  0 <= h < msPerDay ->
  localMidnight tz (localMidnight tz t + h) = localMidnight tz t.
Proof.
  intros Hh. unfold localMidnight.
  replace ((t + tz) / msPerDay * msPerDay - tz + h + tz)
    with (h + (t + tz) / msPerDay * msPerDay) by lia.
  rewrite Z.div_add by (unfold msPerDay; lia).
  rewrite Z.div_small by lia. lia.
Qed.

(** One civil day of the scan: the two candidates of the day of [c]. *)
Lemma scanHours_day (t c : Z) :
  scanHours tz (Some t) (Some c) REVIEW_WINDOWS =
  let m := localMidnight tz c in
  if t <? m + 9 * msPerHour then Some (Some (m + 9 * msPerHour))
  else if t <? m + 18 * msPerHour then Some (Some (m + 18 * msPerHour))
  else None.
Proof.
  cbn [scanHours REVIEW_WINDOWS setHours date_gt].
  rewrite localMidnight_idem by (unfold msPerDay, msPerHour; lia).
  reflexivity.
Qed.

Lemma scanDays_cons (t k : Z) (rest : list Z) :
  scanDays tz (Some t) (k :: rest) =
  match scanHours tz (Some t) (Some (t + k * msPerDay)) REVIEW_WINDOWS with
  | Some w => Some w
  | None => scanDays tz (Some t) rest
  end.
Proof. reflexivity. Qed.

Lemma nextWindow_valid (t : Z) :
  nextWindow tz (Some t) = Some (firstWindowAfter tz t).
Proof.
  unfold nextWindow, firstWindowAfter, dayOffsets.
  change (List.map Z.of_nat (seq 0 15))
    with (0 :: 1 :: List.map Z.of_nat (seq 2 13)).
  rewrite !scanDays_cons, !scanHours_day, !localMidnight_shift.
  cbv zeta. rewrite Z.mul_0_l, Z.mul_1_l, !Z.add_0_r.
  pose proof (localMidnight_bounds t) as Hb.
  set (m := localMidnight tz t) in *.
  unfold msPerDay, msPerHour in *.
  destruct (Z.ltb_spec t (m + 9 * 3600000)); [reflexivity|].
  destruct (Z.ltb_spec t (m + 18 * 3600000)); [reflexivity|].
  destruct (Z.ltb_spec t (m + 86400000 + 9 * 3600000)); [reflexivity|lia].
Qed.

Lemma nextWindow_invalid : nextWindow tz None = None.
Proof. reflexivity. Qed.

Lemma onWindow_iff (w : Z) :
  onWindow tz w <->
  w = localMidnight tz w + 9 * msPerHour \/ w = localMidnight tz w + 18 * msPerHour.
Proof.
  unfold onWindow, REVIEW_WINDOWS. rewrite localMidnight_mod. split.
  - intros (h & [<- | [<- | []]] & Hh); lia.
  - intros [H | H]; [exists 9 | exists 18]; cbn [In]; split; auto; lia.
Qed.

Lemma localMidnight_mono (t u : Z) :
  t <= u -> localMidnight tz t <= localMidnight tz u.
Proof.
  intros H. unfold localMidnight.
  pose proof (Z.div_le_mono (t + tz) (u + tz) msPerDay ltac:(unfold msPerDay; lia) ltac:(lia)).
  unfold msPerDay in *. lia.
Qed.

Lemma localMidnight_step (t u : Z) :
  localMidnight tz t < localMidnight tz u ->
  localMidnight tz t + msPerDay <= localMidnight tz u.
Proof.
  unfold localMidnight, msPerDay. lia.
Qed.

Lemma firstWindowAfter_later (t : Z) : t < firstWindowAfter tz t.
Proof.
  unfold firstWindowAfter. pose proof (localMidnight_bounds t).
  unfold msPerDay, msPerHour in *.
  repeat match goal with |- context [?a <? ?b] => destruct (Z.ltb_spec a b) end; lia.
Qed.

Lemma firstWindowAfter_onWindow (t : Z) : onWindow tz (firstWindowAfter tz t).
Proof.
  apply onWindow_iff. unfold firstWindowAfter.
  repeat match goal with |- context [?a <? ?b] => destruct (Z.ltb_spec a b) end.
  - left. rewrite localMidnight_idem; [reflexivity | unfold msPerDay, msPerHour; lia].
  - right. rewrite localMidnight_idem; [reflexivity | unfold msPerDay, msPerHour; lia].
  - left. replace (localMidnight tz t + msPerDay + 9 * msPerHour)
      with (localMidnight tz t + 9 * msPerHour + 1 * msPerDay) by lia.
    rewrite localMidnight_shift, localMidnight_idem; [lia | unfold msPerDay, msPerHour; lia].
Qed.

Lemma firstWindowAfter_least (t u : Z) :
  t < u -> onWindow tz u -> firstWindowAfter tz t <= u.
Proof.
  intros Htu Hu. apply onWindow_iff in Hu.
  pose proof (localMidnight_mono t u ltac:(lia)) as Hm.
  pose proof (localMidnight_step t u) as Hs.
  pose proof (localMidnight_bounds t). pose proof (localMidnight_bounds u).
  unfold firstWindowAfter. unfold msPerDay, msPerHour in *.
  repeat match goal with |- context [?a <? ?b] => destruct (Z.ltb_spec a b) end; lia.
Qed.

End WindowFacts.

(** With UTC as local time: from 10:00 the next window is 18:00 of the
    same day, from 19:00 it is 9:00 of the next day, and a window is
    never its own successor. *)
Example nextWindow_from_10h :
  nextWindow 0 (Some (10 * msPerHour)) = Some (18 * msPerHour).
Proof. reflexivity. Qed.

Example nextWindow_from_19h :
  nextWindow 0 (Some (19 * msPerHour)) = Some (msPerDay + 9 * msPerHour).
Proof. reflexivity. Qed.

Example nextWindow_from_9h :
  nextWindow 0 (Some (9 * msPerHour)) = Some (18 * msPerHour).
Proof. reflexivity. Qed.

(** *** The scan within the range of [Date] *)

Section ClippedFacts.

Variable tz : Z.

Lemma timeClip_in (v : Z) : - maxTime <= v <= maxTime -> timeClip v = Some v.
Proof.
  intros Hv. unfold timeClip.
  destruct (Z.leb_spec (Z.abs v) maxTime) as [_ | Habs]; [reflexivity | lia].
Qed.

Lemma timeClip_out (v : Z) : maxTime < v -> timeClip v = None.
Proof.
  intros Hv. unfold timeClip.
  destruct (Z.leb_spec (Z.abs v) maxTime) as [Habs | _]; [lia | reflexivity].
Qed.

(** At least a day inside the range of [Date] no candidate that the
    scan reaches is clipped, and the scan finds the same window as
    without the clip. *)
Lemma Clipped_nextWindow_within (t : Z) :
  within msPerDay t ->
  Clipped.nextWindow tz (Some t) = Some (firstWindowAfter tz t).
Proof.
  intros [Hlo Hhi].
  pose proof (localMidnight_bounds tz t) as Hb.
  unfold Clipped.nextWindow, firstWindowAfter, dayOffsets.
  change (List.map Z.of_nat (seq 0 15))
    with (0 :: 1 :: List.map Z.of_nat (seq 2 13)).
  cbv zeta. set (m := localMidnight tz t) in *.
  assert (H9 : Clipped.setHours tz 9 (Some t) = Some (m + 9 * msPerHour)).
  { cbn [Clipped.setHours]. apply timeClip_in.
    fold m. unfold msPerDay, msPerHour, maxTime in *. lia. }
  assert (H18 : Clipped.setHours tz 18 (Some (m + 9 * msPerHour))
                = Some (m + 18 * msPerHour)).
  { cbn [Clipped.setHours]. unfold m.
    rewrite localMidnight_idem by (unfold msPerDay, msPerHour; lia).
    apply timeClip_in. fold m. unfold msPerDay, msPerHour, maxTime in *. lia. }
  cbn [Clipped.scanDays Clipped.addDate].
  rewrite Z.mul_0_l, Z.add_0_r, Z.mul_1_l.
  rewrite (timeClip_in t) by (unfold msPerDay, maxTime in *; lia).
  rewrite (timeClip_in (t + msPerDay)) by (unfold msPerDay, maxTime in *; lia).
  cbn [Clipped.scanHours REVIEW_WINDOWS]. rewrite H9. cbn [date_gt].
  destruct (Z.ltb_spec t (m + 9 * msPerHour)) as [|Ht9]; [reflexivity|].
  rewrite H18. cbn [date_gt].
  destruct (Z.ltb_spec t (m + 18 * msPerHour)) as [|Ht18]; [reflexivity|].
  cbn [Clipped.setHours].
  replace (t + msPerDay) with (t + 1 * msPerDay) by lia.
  rewrite localMidnight_shift. fold m.
  rewrite timeClip_in by (unfold msPerDay, msPerHour, maxTime in *; lia).
  cbn [date_gt].
  destruct (Z.ltb_spec t (m + 1 * msPerDay + 9 * msPerHour)) as [_|Hge].
  - apply f_equal. lia.
  - unfold msPerDay, msPerHour in *. lia.
Qed.

End ClippedFacts.

(** C1 (as the code has it). For every instant [t] at least one day
    inside both ends of the range of [Date], [nextWindow] returns an
    instant strictly later than [t] that falls on the 9:00 or the 18:00
    window, and no window strictly later than [t] comes before it.  The
    scan with the time clip and the scan without it agree there. *)
Theorem nextWindow_earliest_later_window (tz t : Z) :
  within msPerDay t ->
  exists w, Clipped.nextWindow tz (Some t) = Some w /\
            nextWindow tz (Some t) = Some w /\
            t < w /\
            onWindow tz w /\
            forall u, t < u -> onWindow tz u -> w <= u.
Proof.
  intros Ht. exists (firstWindowAfter tz t).
  split; [apply Clipped_nextWindow_within, Ht|].
  split; [apply nextWindow_valid|].
  split; [apply firstWindowAfter_later|].
  split; [apply firstWindowAfter_onWindow|].
  intros u. apply firstWindowAfter_least.
Qed.

Lemma nextWindow_earliest_later_window_witness :
  exists w, Clipped.nextWindow 0 (Some (10 * msPerHour)) = Some w /\
            nextWindow 0 (Some (10 * msPerHour)) = Some w /\
            10 * msPerHour < w /\
            onWindow 0 w.
Proof.
  destruct (nextWindow_earliest_later_window 0 (10 * msPerHour))
    as (w & H1 & H2 & H3 & H4 & _).
  - unfold within, maxTime, msPerDay, msPerHour. lia.
  - exists w. auto.
Defined.

(** C1 (as the claim has it) fails at both ends of the range of
    [Date].  From the last instant that a [Date] can hold every candidate
    of the scan is an Invalid Date, none compares later than the input,
    and the fallback returns the input itself.  From the first instant,
    ten hours behind UTC (14:00 local time), the 9:00 candidate of the day
    is before the range; [candidate] stays invalid through the
    [setHours] for 18:00, and the scan returns 9:00 of the next day
    although 18:00 of the same day is a later window that comes first. *)
Lemma nextWindow_fails_at_range_ends :
  (exists w, Clipped.nextWindow 0 (Some maxTime) = Some w /\ ~ maxTime < w) /\
  (exists w u,
     Clipped.nextWindow (- 10 * msPerHour) (Some (- maxTime)) = Some w /\
     onWindow (- 10 * msPerHour) u /\ - maxTime < u < w).
Proof.
  split.
  - exists maxTime. split; [reflexivity | lia].
  - exists (- maxTime + 19 * msPerHour), (- maxTime + 4 * msPerHour).
    split; [reflexivity|]. split.
    + exists 18. split; [cbn; auto | reflexivity].
    + unfold maxTime, msPerHour. lia.
Qed.

(** ** Ladder simulator *)

Section LadderFacts.

Variable tz : Z.

Lemma simulateToGuru_done (d : Date) (s : Z) :
  4 <= s -> simulateToGuru tz d s = d.
Proof.
  intros H. simp simulateToGuru. destruct (Z_lt_dec s 4); [lia | reflexivity].
Qed.

Lemma simulateToGuru_step (d : Date) (s : Z) :
  s < 4 ->
  simulateToGuru tz d s =
  simulateToGuru tz (nextWindow tz (plusHours d (intervalAt s))) (s + 1).
Proof.
  intros H. rewrite simulateToGuru_equation_1.
  destruct (Z_lt_dec s 4); [reflexivity | lia].
Qed.

(** The loop runs [4 - s] times (none when [s >= 4]) and then holds the
    value that [simulateToGuru] returns. *)
Lemma whileRuns_simulate (n : nat) :
  forall d s, n = Z.to_nat (4 - s) ->
    whileRuns tz n (d, s) (simulateToGuru tz d s, Z.max s 4).
Proof.
  induction n as [|n IH]; intros d s Hn.
  - assert (4 <= s) by lia.
    rewrite simulateToGuru_done, Z.max_l by lia.
    apply run_exit. cbn. lia.
  - assert (s < 4) by lia.
    apply run_iter; [cbn; lia|]. cbn [loopBody].
    rewrite (simulateToGuru_step d s) by lia.
    replace (Z.max s 4) with (Z.max (s + 1) 4) by lia.
    apply IH. lia.
Qed.

(** Every run of the loop has that length and that result. *)
Lemma whileRuns_inv (n : nat) (st r : Date * Z) :
  whileRuns tz n st r ->
  n = Z.to_nat (4 - snd st) /\
  fst r = simulateToGuru tz (fst st) (snd st).
Proof.
  induction 1 as [s Hs | n [d s] s' Hs Hrun [IHn IHr]].
  - split; [lia|]. rewrite simulateToGuru_done by lia. reflexivity.
  - cbn [loopBody fst snd] in *. split; [lia|].
    rewrite (simulateToGuru_step _ _ Hs). exact IHr.
Qed.

End LadderFacts.

(** From 9:00 of day 0 and stage 0 the climb ends at 9:00 of day 4. *)
Example simulateToGuru_from_9h :
  simulateToGuru 0 (Some (9 * msPerHour)) 0 = Some (4 * msPerDay + 9 * msPerHour).
Proof. reflexivity. Qed.

(** C2. From every starting instant and every starting stage [s], the
    loop of [simulateToGuru] terminates after exactly [4 - s] iterations
    when [s < 4]; when [s >= 4] it performs no iteration and the starting
    instant is returned unchanged. *)
Theorem simulateToGuru_iterations (tz : Z) (d : Date) (s : Z) :
  whileRuns tz (Z.to_nat (4 - s)) (d, s) (simulateToGuru tz d s, Z.max s 4) /\
  (forall n r, whileRuns tz n (d, s) r ->
               n = Z.to_nat (4 - s) /\ fst r = simulateToGuru tz d s) /\
  (s < 4 -> Z.of_nat (Z.to_nat (4 - s)) = 4 - s) /\
  (4 <= s -> Z.to_nat (4 - s) = 0%nat /\ simulateToGuru tz d s = d).
Proof.
  split; [apply whileRuns_simulate; reflexivity|].
  split; [intros n r Hrun; apply (whileRuns_inv tz n _ r Hrun)|].
  split; [lia|].
  intros Hs. split; [lia | apply simulateToGuru_done; exact Hs].
Qed.

Lemma simulateToGuru_iterations_witness :
  whileRuns 0 4 (Some 0, 0) (simulateToGuru 0 (Some 0) 0, 4) /\
  Z.of_nat 4 = 4 - 0 /\
  simulateToGuru 0 (Some 0) 7 = Some 0.
Proof.
  destruct (simulateToGuru_iterations 0 (Some 0) 0) as (Hrun & _ & Hlt & _).
  destruct (simulateToGuru_iterations 0 (Some 0) 7) as (_ & _ & _ & Hge).
  split; [exact Hrun|]. split; [apply Hlt; lia|]. apply Hge. lia.
Defined.
(** ** Sorting *)

Section SortFacts.

Context {A : Type}.
Variable cmp : A -> A -> option Q.

Lemma insertSorted_perm (x : A) (l : list A) :
  Permutation (insertSorted cmp x l) (x :: l).
Proof.
  induction l as [|y l IH]; cbn; [reflexivity|].
  destruct (keepsOrder (cmp x y)); [reflexivity|].
  rewrite IH. apply perm_swap.
Qed.

Lemma sortBy_perm (l : list A) : Permutation (sortBy cmp l) l.
Proof.
  induction l as [|x l IH]; cbn; [reflexivity|].
  rewrite insertSorted_perm. apply perm_skip, IH.
Qed.

Lemma sortBy_length (l : list A) : length (sortBy cmp l) = length l.
Proof. apply Permutation_length, sortBy_perm. Qed.

Hypothesis precedes_total : forall x y, precedes cmp x y \/ precedes cmp y x.
Hypothesis precedes_trans : forall x y z, precedes cmp x y -> precedes cmp y z -> precedes cmp x z.

Lemma insertSorted_sorted (x : A) (l : list A) :
  StronglySorted (precedes cmp) l -> StronglySorted (precedes cmp) (insertSorted cmp x l).
Proof.
  induction 1 as [|y l Hl IH Hy]; cbn.
  - repeat constructor.
  - destruct (keepsOrder (cmp x y)) eqn:E.
    + constructor; [constructor; assumption|].
      constructor; [exact E|].
      eapply Forall_impl; [exact Hy|]. intros z Hz. eapply precedes_trans; eauto.
    + constructor; [exact IH|].
      eapply Permutation_Forall; [symmetry; apply insertSorted_perm|].
      constructor; [|exact Hy].
      destruct (precedes_total x y) as [H|H]; [unfold precedes in H; congruence|exact H].
Qed.

Lemma sortBy_sorted (l : list A) : StronglySorted (precedes cmp) (sortBy cmp l).
Proof.
  induction l as [|x l IH]; cbn; [constructor|].
  apply insertSorted_sorted, IH.
Qed.

(** Inserting in front of a list whose elements all follow [x]. *)
Lemma insertSorted_front (x : A) (l : list A) :
  Forall (precedes cmp x) l -> insertSorted cmp x l = x :: l.
Proof.
  destruct 1 as [|y l Hy _]; cbn; [reflexivity|].
  unfold precedes in Hy. rewrite Hy. reflexivity.
Qed.

(** A stable sort commutes with a filter. *)
Lemma filter_insertSorted (P : A -> bool) (x : A) (l : list A) :
  StronglySorted (precedes cmp) l ->
  List.filter P (insertSorted cmp x l) =
  if P x then insertSorted cmp x (List.filter P l) else List.filter P l.
Proof.
  induction 1 as [|y l Hl IH Hy]; cbn.
  - destruct (P x); reflexivity.
  - destruct (keepsOrder (cmp x y)) eqn:E; cbn.
    + destruct (P x) eqn:Px, (P y) eqn:Py; cbn; rewrite ?E; try reflexivity.
      symmetry. apply insertSorted_front.
      rewrite List.Forall_forall. intros z Hz. apply filter_In in Hz as [Hz _].
      rewrite List.Forall_forall in Hy. eapply precedes_trans; [exact E|]. apply Hy, Hz.
    + rewrite IH. destruct (P x) eqn:Px, (P y) eqn:Py; cbn; rewrite ?E; reflexivity.
Qed.

Lemma filter_sortBy (P : A -> bool) (l : list A) :
  List.filter P (sortBy cmp l) = sortBy cmp (List.filter P l).
Proof.
  induction l as [|x l IH]; cbn; [reflexivity|].
  rewrite filter_insertSorted by apply sortBy_sorted.
  destruct (P x); cbn; rewrite IH; reflexivity.
Qed.

(** Sorting a sorted list changes nothing. *)
Lemma sortBy_sorted_id (l : list A) :
  StronglySorted (precedes cmp) l -> sortBy cmp l = l.
Proof.
  induction 1 as [|x l Hl IH Hx]; cbn; [reflexivity|].
  rewrite IH. apply insertSorted_front, Hx.
Qed.

End SortFacts.

(** ** Pace statistics *)

Section StatsFacts.

Local Open Scope Q_scope.

Lemma ascending_precedes (x y : Q) : precedes ascending x y <-> x <= y.
Proof.
  unfold precedes, ascending, keepsOrder. rewrite Qle_bool_iff. split; intros; lra.
Qed.

Lemma ascending_total (x y : Q) : precedes ascending x y \/ precedes ascending y x.
Proof. rewrite !ascending_precedes. lra. Qed.

Lemma ascending_trans (x y z : Q) :
  precedes ascending x y -> precedes ascending y z -> precedes ascending x z.
Proof. rewrite !ascending_precedes. lra. Qed.

(** The [sorted] field is the duration list in ascending order. *)
Lemma sortBy_ascending (l : list Q) :
  Permutation (sortBy ascending l) l /\ StronglySorted Qle (sortBy ascending l).
Proof.
  split; [apply sortBy_perm|].
  pose proof (sortBy_sorted ascending ascending_total ascending_trans l) as H.
  induction H as [|x s Hs IH Hx]; constructor; [exact IH|].
  eapply Forall_impl; [exact Hx|]. intros y. apply ascending_precedes.
Qed.

(** Equal numbers sort, index and add up alike. *)
Lemma insertSorted_Qeq (x x' : Q) (l l' : list Q) :
  x == x' -> Forall2 Qeq l l' ->
  Forall2 Qeq (insertSorted ascending x l) (insertSorted ascending x' l').
Proof.
  intros Hx Hl. induction Hl as [|y y' l l' Hy Hl IH]; cbn.
  - repeat constructor. exact Hx.
  - rewrite Hx, Hy. destruct (Qle_bool (x' - y') 0); repeat constructor; assumption.
Qed.

Lemma sortBy_Qeq (l l' : list Q) :
  Forall2 Qeq l l' -> Forall2 Qeq (sortBy ascending l) (sortBy ascending l').
Proof.
  induction 1; cbn; [constructor|]. apply insertSorted_Qeq; assumption.
Qed.

Lemma at_Qeq (l l' : list Q) (i : nat) :
  Forall2 Qeq l l' -> at_ l i == at_ l' i.
Proof.
  intros H. revert i. unfold at_.
  induction H; intros [|i]; cbn; try reflexivity; auto.
Qed.

Lemma fold_left_Qeq (l l' : list Q) :
  Forall2 Qeq l l' -> forall a a', a == a' ->
  fold_left Qplus l a == fold_left Qplus l' a'.
Proof.
  induction 1 as [|x x' l l' Hx Hl IH]; intros a a' Ha; cbn; [exact Ha|].
  apply IH. rewrite Ha, Hx. reflexivity.
Qed.

Lemma sumQ_Qeq (l l' : list Q) : Forall2 Qeq l l' -> sumQ l == sumQ l'.
Proof. intros H. apply fold_left_Qeq; [exact H | reflexivity]. Qed.

Lemma orElse_Qeq (a a' b b' : Q) :
  a == a' -> b == b' -> orElse a b == orElse a' b'.
Proof.
  intros Ha Hb. unfold orElse. rewrite Ha.
  destruct (Qeq_bool a' 0); assumption.
Qed.

(** What either revision of [computeStats] returns is [summarize] of its
    list of completed attempts. *)
Lemma computeStats_summarize (ps : list progression) (lvl : Z) (st : paceStats) :
  computeStats ps lvl = Some st \/ LatestRun.computeStats ps lvl = Some st ->
  exists done, (2 <= length done)%nat /\ st = summarize done.
Proof.
  unfold computeStats, LatestRun.computeStats.
  intros [H | H];
    match type of H with
    | (if (length ?d <? 2)%nat then _ else _) = _ =>
        destruct (Nat.ltb_spec (length d) 2) as [Hlt | Hge]; [discriminate|];
        injection H as <-
    end.
  - eexists; split; [|reflexivity]. rewrite sortBy_length. exact Hge.
  - eexists; split; [|reflexivity]. exact Hge.
Qed.

End StatsFacts.

(** C3 (as the code has it). When the durations of the completed
    attempts of the current run are 5, 7, 7, 9 and 20 days, [computeStats]
    returns median 7, slow percentile 9 and average 9.6, and the fast
    percentile is the element at index [floor(5 * 0.25) = 1] of the sorted
    list, which is 7. *)
Theorem computeStats_scenario (ps : list progression) (lvl : Z) (st : paceStats) :
  computeStats ps lvl = Some st \/ LatestRun.computeStats ps lvl = Some st ->
  Forall2 Qeq (durs st) [5; 7; 7; 9; 20]%Q ->
  (median st == 7 /\ fast st == 7 /\ slow st == 9 /\ avg st == 96 / 10)%Q.
Proof.
  intros Hst Hd. apply computeStats_summarize in Hst as (dn & _ & ->).
  cbn [summarize durs median fast slow avg] in *.
  pose proof (sortBy_Qeq _ _ Hd) as Hs.
  pose proof (Forall2_length _ _ _ Hd) as Hn.
  pose proof (Forall2_length _ _ _ Hs) as Hm.
  unfold lengthQ. rewrite Hn, Hm.
  change (length (sortBy ascending [5; 7; 7; 9; 20]%Q)) with 5%nat.
  change (length [5; 7; 7; 9; 20]%Q) with 5%nat.
  change (5 / 2)%nat with 2%nat. change (5 / 4)%nat with 1%nat.
  change (3 * 5 / 4)%nat with 3%nat. change (5 - 1)%nat with 4%nat.
  repeat split.
  - rewrite (at_Qeq _ _ 2 Hs). reflexivity.
  - rewrite (orElse_Qeq _ _ _ _ (at_Qeq _ _ 1 Hs) (at_Qeq _ _ 0 Hs)). reflexivity.
  - rewrite (orElse_Qeq _ _ _ _ (at_Qeq _ _ 3 Hs) (at_Qeq _ _ 4 Hs)). reflexivity.
  - rewrite (sumQ_Qeq _ _ Hd). reflexivity.
Qed.

Lemma computeStats_scenario_witness :
  exists st, computeStats scenario 6 = Some st /\
             (median st == 7 /\ fast st == 7 /\ slow st == 9 /\ avg st == 96 / 10)%Q.
Proof.
  eexists. split; [reflexivity|].
  apply (computeStats_scenario scenario 6); [left; reflexivity|].
  repeat constructor; reflexivity.
Defined.

(** C3 (as the claim has it) fails: on the scenario the fast percentile
    is not 5. *)
Lemma computeStats_scenario_fast_not_5 :
  exists st, computeStats scenario 6 = Some st /\
             Forall2 Qeq (durs st) [5; 7; 7; 9; 20]%Q /\
             ~ (fast st == 5)%Q.
Proof.
  eexists. split; [reflexivity|]. split; [repeat constructor; reflexivity|].
  intros H. vm_compute in H. discriminate H.
Qed.

(** C4 (as the code has it). The median that [computeStats] returns is
    the element at index [floor(n / 2)] of the durations in ascending
    order, without interpolation; for an even [n] that is the upper of
    the two middle elements, the one after index [n / 2 - 1]. *)
Theorem computeStats_median_upper_middle
    (ps : list progression) (lvl : Z) (st : paceStats) :
  computeStats ps lvl = Some st \/ LatestRun.computeStats ps lvl = Some st ->
  Nat.even (length (durs st)) = true ->
  Permutation (sorted st) (durs st) /\
  StronglySorted Qle (sorted st) /\
  median st = nth (length (durs st) / 2) (sorted st) 0%Q /\
  (length (durs st) / 2 = S (length (durs st) / 2 - 1))%nat.
Proof.
  intros Hst Hev. apply computeStats_summarize in Hst as (dn & Hn & ->).
  cbn [summarize durs median sorted] in *.
  destruct (sortBy_ascending (List.map durationDays dn)) as [Hp Hs].
  split; [exact Hp|]. split; [exact Hs|].
  rewrite sortBy_length. split; [reflexivity|].
  rewrite length_map in *.
  assert (1 <= length dn / 2)%nat by (apply Nat.div_le_lower_bound; lia).
  lia.
Qed.

Lemma computeStats_median_upper_middle_witness :
  exists st, computeStats twoAttempts 3 = Some st /\
             median st = nth 1 (sorted st) 0%Q.
Proof.
  eexists. split; [reflexivity|].
  apply (computeStats_median_upper_middle twoAttempts 3); [left|]; reflexivity.
Defined.

(** C4 (as the claim has it) fails: with two completed attempts of 1
    and 2 days the median is 2, not the lower-middle element 1. *)
Lemma computeStats_median_not_lower_middle :
  exists st, computeStats twoAttempts 3 = Some st /\
             Nat.even (length (durs st)) = true /\
             ~ (median st == nth (length (durs st) / 2 - 1) (sorted st) 0)%Q.
Proof.
  eexists. split; [reflexivity|]. split; [reflexivity|].
  intros H. vm_compute in H. discriminate H.
Qed.

Lemma isDone_qualifies (lvl : Z) (p : progression) :
  isDone lvl p = true <-> qualifies lvl p.
Proof.
  unfold isDone, qualifies, truthy.
  rewrite !andb_true_iff, negb_true_iff, Z.ltb_lt.
  destruct (passed_at p), (abandoned_at p); split.
  all: try (intros [[H1 H2] H3]; discriminate).
  all: try (intros (H1 & H2 & H3); first [discriminate | destruct H1; discriminate]).
  all: intros H; intuition eauto.
Qed.

(** C5. When fewer than two attempts of the current run qualify,
    [computeStats] returns the no-data marker and no statistic; so it
    does for a history of a single attempt. *)
Theorem computeStats_insufficient_history (ps : list progression) (lvl : Z) :
  ((length (List.filter (isDone lvl) (currentRun ps)) < 2)%nat ->
   computeStats ps lvl = None) /\
  (forall p, computeStats [p] lvl = None) /\
  (forall p, isDone lvl p = true <-> qualifies lvl p).
Proof.
  split; [|split].
  - intros H. unfold computeStats.
    destruct (Nat.ltb_spec (length (List.filter (isDone lvl) (currentRun ps))) 2);
      [reflexivity | lia].
  - intros p. unfold computeStats.
    match goal with |- (if (?n <? 2)%nat then _ else _) = _ =>
      destruct (Nat.ltb_spec n 2) as [|Hge]; [reflexivity|] end.
    exfalso. unfold currentRun in Hge.
    pose proof (List.filter_length_le (isDone lvl)
                  (List.filter (sinceRunStart (getCurrentRunStart [p])) [p])).
    pose proof (List.filter_length_le (sinceRunStart (getCurrentRunStart [p])) [p]).
    cbn [length] in *. lia.
  - intros p. apply isDone_qualifies.
Qed.

Lemma computeStats_insufficient_history_witness :
  computeStats [scenarioAttempt 1 0 5; scenarioAttempt 2 5 7] 2 = None.
Proof.
  apply (computeStats_insufficient_history
           [scenarioAttempt 1 0 5; scenarioAttempt 2 5 7] 2).
  vm_compute. lia.
Defined.

(** ** Run segmentation: the run-start filter *)

Section RunStartFacts.

Lemma cmpStartedAt_precedes (a b : progression) :
  precedes cmpStartedAt a b <-> startedMs a <= startedMs b.
Proof.
  unfold precedes, cmpStartedAt, Zq, keepsOrder, startedMs.
  rewrite Qle_bool_iff. change 0%Q with (inject_Z 0). rewrite <- Zle_Qle. lia.
Qed.

Lemma cmpStartedAt_total (a b : progression) :
  precedes cmpStartedAt a b \/ precedes cmpStartedAt b a.
Proof. rewrite !cmpStartedAt_precedes. lia. Qed.

Lemma cmpStartedAt_trans (a b c : progression) :
  precedes cmpStartedAt a b -> precedes cmpStartedAt b c ->
  precedes cmpStartedAt a c.
Proof. rewrite !cmpStartedAt_precedes. lia. Qed.

(** The walk returns its initial date or the start of an attempt. *)
Lemma walkRun_in (l : list progression) :
  forall r prev, walkRun r prev l = r \/
                 exists p, In p l /\ walkRun r prev l = startedMs p.
Proof.
  induction l as [|p l IH]; intros r prev; cbn [walkRun]; [left; reflexivity|].
  destruct (IH (if (level p <=? prev) && (level p <=? 5)
                then newDate (started_at p) else r) (level p)) as [H | (q & Hq & H)].
  - rewrite H. destruct ((level p <=? prev) && (level p <=? 5)).
    + right. exists p. split; [left; reflexivity | reflexivity].
    + left. reflexivity.
  - right. exists q. split; [right; exact Hq | exact H].
Qed.

(** Either no attempt of [l] marks a run start and the walk returns its
    initial date, or one does and the initial date is forgotten. *)
Lemma walkRun_initial (l : list progression) :
  forall r r' prev, walkRun r prev l = r \/ walkRun r prev l = walkRun r' prev l.
Proof.
  induction l as [|p l IH]; intros r r' prev; cbn [walkRun]; [left; reflexivity|].
  destruct ((level p <=? prev) && (level p <=? 5)).
  - right. reflexivity.
  - apply IH.
Qed.

Lemma walkRun_app (a b : list progression) :
  forall r prev, exists r' prev',
    walkRun r prev (a ++ b) = walkRun r' prev' b /\
    (r' = r \/ exists p, In p a /\ r' = startedMs p).
Proof.
  induction a as [|p a IH]; intros r prev; cbn [app walkRun].
  - exists r, prev. split; [reflexivity | left; reflexivity].
  - destruct (IH (if (level p <=? prev) && (level p <=? 5)
                  then newDate (started_at p) else r) (level p))
      as (r' & prev' & Hw & Hr).
    exists r', prev'. split; [exact Hw|].
    destruct Hr as [-> | (q & Hq & ->)].
    + destruct ((level p <=? prev) && (level p <=? 5)).
      * right. exists p. split; [left; reflexivity | reflexivity].
      * left. reflexivity.
    + right. exists q. split; [right; exact Hq | reflexivity].
Qed.

(** A list sorted by start date splits at any date. *)
Lemma sorted_split (T : Z) (l : list progression) :
  StronglySorted (precedes cmpStartedAt) l ->
  l = List.filter (fun p => startedMs p <? T) l ++
      List.filter (fun p => T <=? startedMs p) l.
Proof.
  induction 1 as [|p l Hl IH Hp]; cbn; [reflexivity|].
  destruct (Z.ltb_spec (startedMs p) T) as [Hlt | Hge].
  - destruct (Z.leb_spec T (startedMs p)); [lia|]. cbn. f_equal. exact IH.
  - destruct (Z.leb_spec T (startedMs p)); [|lia].
    assert (Hnone : List.filter (fun p => startedMs p <? T) l = []).
    { rewrite List.Forall_forall in Hp. clear IH Hl.
      induction l as [|q l IHl]; cbn; [reflexivity|].
      pose proof (Hp q (or_introl eq_refl)) as Hq. apply cmpStartedAt_precedes in Hq.
      destruct (Z.ltb_spec (startedMs q) T); [lia|].
      apply IHl. intros z Hz. apply Hp. right. exact Hz. }
    rewrite Hnone. cbn. f_equal.
    rewrite Hnone in IH. exact IH.
Qed.

(** Sorting the current run and walking it gives the same run start. *)
Lemma getCurrentRunStart_currentRun (ps : list progression) (T : Z) :
  getCurrentRunStart ps = Some T ->
  getCurrentRunStart (currentRun ps) = Some T.
Proof.
  unfold getCurrentRunStart at 1. destruct ps as [|p0 ps0]; [discriminate|].
  set (ps := p0 :: ps0). set (S := sortBy cmpStartedAt ps).
  pose proof (sortBy_sorted cmpStartedAt cmpStartedAt_total cmpStartedAt_trans ps) as HS.
  fold S in HS.
  destruct S as [|s0 S'] eqn:ES; [discriminate|]. intros [= HT].
  change (walkRun (newDate (started_at s0)) 0 (s0 :: S') = T) in HT.
  (* some attempt starts at [T] *)
  assert (Hex : exists p, In p (s0 :: S') /\ startedMs p = T).
  { destruct (walkRun_in (s0 :: S') (newDate (started_at s0)) 0) as [H | (q & Hq & H)].
    - exists s0. split; [left; reflexivity|]. unfold startedMs. congruence.
    - exists q. split; [exact Hq | congruence]. }
  (* the sorted current run is the part of [S] from [T] on *)
  assert (HB : sortBy cmpStartedAt (currentRun ps) =
               List.filter (fun p => T <=? startedMs p) (s0 :: S')).
  { unfold currentRun. unfold getCurrentRunStart. fold ps. cbv zeta. fold S.
    rewrite ES. rewrite HT. rewrite <- ES. unfold S.
    rewrite (filter_sortBy cmpStartedAt cmpStartedAt_total cmpStartedAt_trans).
    reflexivity. }
  pose proof (sorted_split T _ HS) as Hsplit.
  set (A := List.filter (fun p => startedMs p <? T) (s0 :: S')) in *.
  set (B := List.filter (fun p => T <=? startedMs p) (s0 :: S')) in *.
  assert (HA : forall p, In p A -> startedMs p < T).
  { intros p Hp. apply filter_In in Hp as [_ Hp]. lia. }
  assert (HBge : forall p, In p B -> T <= startedMs p).
  { intros p Hp. apply filter_In in Hp as [_ Hp]. lia. }
  assert (HBsorted : StronglySorted (precedes cmpStartedAt) B).
  { unfold B. rewrite <- (sortBy_sorted_id cmpStartedAt _ HS).
    rewrite (filter_sortBy cmpStartedAt cmpStartedAt_total cmpStartedAt_trans).
    apply sortBy_sorted; [apply cmpStartedAt_total | apply cmpStartedAt_trans]. }
  destruct Hex as (pT & HpT & HkT).
  assert (HpB : In pT B) by (unfold B; apply filter_In; split; [exact HpT | lia]).
  destruct B as [|b B'] eqn:EB; [destruct HpB|].
  assert (Hb : startedMs b = T).
  { pose proof (HBge b (or_introl eq_refl)).
    destruct HpB as [-> | Hin]; [lia|].
    inversion HBsorted as [|? ? _ Hall]; subst.
    rewrite List.Forall_forall in Hall. specialize (Hall pT Hin).
    apply cmpStartedAt_precedes in Hall. lia. }
  (* the current run is not empty, and its walk starts from [T] *)
  unfold getCurrentRunStart.
  destruct (currentRun ps) as [|c cs] eqn:EC.
  { cbn in HB. discriminate HB. }
  cbv zeta. rewrite HB. f_equal.
  fold (startedMs b). rewrite Hb.
  (* compare with the walk over the whole sorted list *)
  rewrite Hsplit in HT.
  destruct (walkRun_app A (b :: B') (newDate (started_at s0)) 0)
    as (r' & prev' & Hw & Hr).
  rewrite Hw in HT. cbn [walkRun] in HT |- *.
  fold (startedMs b) in HT |- *. rewrite Hb in HT |- *.
  replace (if (level b <=? 0) && (level b <=? 5) then T else T) with T
    by (destruct ((level b <=? 0) && (level b <=? 5)); reflexivity).
  destruct (walkRun_initial B' T
              (if (level b <=? prev') && (level b <=? 5) then T else r') (level b))
    as [H | H]; [exact H | congruence].
Qed.

Lemma filter_twice {A : Type} (f : A -> bool) (l : list A) :
  List.filter f (List.filter f l) = List.filter f l.
Proof.
  induction l as [|x l IH]; cbn; [reflexivity|].
  destruct (f x) eqn:E; cbn; rewrite ?E, IH; reflexivity.
Qed.

Lemma currentRun_idempotent (ps : list progression) :
  currentRun (currentRun ps) = currentRun ps.
Proof.
  destruct (getCurrentRunStart ps) as [T|] eqn:E.
  - unfold currentRun at 1. rewrite (getCurrentRunStart_currentRun ps T E).
    unfold currentRun. rewrite E. apply filter_twice.
  - destruct ps; [reflexivity|]. unfold getCurrentRunStart in E.
    pose proof (sortBy_length cmpStartedAt (p :: ps)) as Hl.
    destruct (sortBy cmpStartedAt (p :: ps)); [discriminate Hl | discriminate E].
Qed.

End RunStartFacts.

(** ** Run segmentation: the latest attempt of each level *)

Section LatestRunFacts.

Import LatestRun.

Lemma keepLatest_keyed (m : gmap Z progression) (p : progression) :
  keyed m -> keyed (keepLatest m p).
Proof.
  intros Hm k q. unfold keepLatest.
  destruct (m !! level p) as [old|] eqn:E.
  - destruct (newDate (started_at old) <? newDate (started_at p)); [|apply Hm].
    destruct (decide (level p = k)) as [<- | Hne].
    + rewrite lookup_insert_eq. congruence.
    + rewrite lookup_insert_ne by exact Hne. apply Hm.
  - destruct (decide (level p = k)) as [<- | Hne].
    + rewrite lookup_insert_eq. congruence.
    + rewrite lookup_insert_ne by exact Hne. apply Hm.
Qed.

Lemma fold_keepLatest_keyed (ps : list progression) :
  forall m, keyed m -> keyed (fold_left keepLatest ps m).
Proof.
  induction ps as [|p ps IH]; intros m Hm; cbn; [exact Hm|].
  apply IH, keepLatest_keyed, Hm.
Qed.

(** Folding over attempts of distinct, unused levels stores them all. *)
Lemma fold_keepLatest_fresh (l : list progression) :
  forall m k p,
    NoDup (List.map level l) ->
    (forall q, In q l -> m !! level q = None) ->
    fold_left keepLatest l m !! k = Some p <->
    (In p l /\ level p = k) \/ m !! k = Some p.
Proof.
  induction l as [|q l IH]; intros m k p Hnd Hfresh; cbn [fold_left].
  - cbn. tauto.
  - apply NoDup_cons in Hnd as [Hq Hnd].
    assert (Hstep : keepLatest m q = <[level q := q]> m).
    { unfold keepLatest. rewrite (Hfresh q (or_introl eq_refl)). reflexivity. }
    rewrite Hstep, IH; [|exact Hnd|].
    + destruct (decide (level q = k)) as [<- | Hne].
      * rewrite lookup_insert_eq. rewrite (Hfresh q (or_introl eq_refl)).
        cbn [In]. split.
        -- intros [[Hin Hl] | [= <-]]; [left; split; [right|]; assumption|].
           left. split; [left|]; reflexivity.
        -- intros [[[<- | Hin] Hl] | H]; [right; reflexivity | | discriminate].
           left. split; assumption.
      * rewrite lookup_insert_ne by exact Hne. cbn [In]. split.
        -- intros [[Hin Hl] | H]; [left; split; [right|]; assumption | right; exact H].
        -- intros [[[<- | Hin] Hl] | H]; [contradiction | | right; exact H].
           left. split; assumption.
    + intros r Hr. rewrite lookup_insert_ne; [apply Hfresh; right; exact Hr|].
      intros Heq. apply Hq. rewrite Heq. apply list_elem_of_In, in_map, Hr.
Qed.

Lemma keyed_values (m : gmap Z progression) :
  keyed m ->
  List.map level (List.map snd (map_to_list m)) = List.map fst (map_to_list m).
Proof.
  intros Hm. rewrite List.map_map. apply List.map_ext_in.
  intros [k p] Hin. cbn. apply Hm, elem_of_map_to_list, list_elem_of_In, Hin.
Qed.

Lemma keyed_lookup (m : gmap Z progression) (k : Z) (p : progression) :
  keyed m ->
  m !! k = Some p <-> In p (List.map snd (map_to_list m)) /\ level p = k.
Proof.
  intros Hm. split.
  - intros H. split; [|apply Hm, H].
    apply elem_of_map_to_list, list_elem_of_In in H.
    apply (in_map snd) in H. exact H.
  - intros [Hin <-]. apply in_map_iff in Hin as ([k' q] & <- & Hin). cbn.
    apply list_elem_of_In, elem_of_map_to_list in Hin.
    rewrite (Hm _ _ Hin). exact Hin.
Qed.

(** The order in which [Object.values] lists the entries does not
    matter: any listing of them sorts to the same sequence. *)
Lemma cmpLevel_precedes (a b : progression) :
  precedes cmpLevel a b <-> level a <= level b.
Proof.
  unfold precedes, cmpLevel, Zq, keepsOrder.
  rewrite Qle_bool_iff. change 0%Q with (inject_Z 0). rewrite <- Zle_Qle. lia.
Qed.

Lemma cmpLevel_total (a b : progression) :
  precedes cmpLevel a b \/ precedes cmpLevel b a.
Proof. rewrite !cmpLevel_precedes. lia. Qed.

Lemma cmpLevel_trans (a b c : progression) :
  precedes cmpLevel a b -> precedes cmpLevel b c -> precedes cmpLevel a c.
Proof. rewrite !cmpLevel_precedes. lia. Qed.

Lemma NoDup_level_inj (l : list progression) (x y : progression) :
  NoDup (List.map level l) -> In x l -> In y l -> level x = level y -> x = y.
Proof.
  induction l as [|z l IH]; cbn; [tauto|].
  intros Hnd Hx Hy Hxy. apply NoDup_cons in Hnd as [Hz Hnd].
  destruct Hx as [-> | Hx], Hy as [-> | Hy]; auto.
  - exfalso. apply Hz. rewrite Hxy. apply list_elem_of_In, in_map, Hy.
  - exfalso. apply Hz. rewrite <- Hxy. apply list_elem_of_In, in_map, Hx.
Qed.

Lemma getLatestRun_any_listing (ps vs : list progression) :
  Permutation vs (List.map snd (map_to_list (fold_left keepLatest ps ∅))) ->
  sortBy cmpLevel vs = getLatestRun ps.
Proof.
  intros Hperm. unfold getLatestRun. cbv zeta.
  set (m := fold_left keepLatest ps ∅) in *.
  assert (Hm : keyed m).
  { apply fold_keepLatest_keyed. intros k p. rewrite lookup_empty. discriminate. }
  assert (Hnd : NoDup (List.map level (List.map snd (map_to_list m)))).
  { rewrite (keyed_values m Hm). apply NoDup_fst_map_to_list. }
  apply (StronglySorted_unique_strong (precedes cmpLevel)).
  - intros x y Hx Hy Hxy Hyx.
    apply cmpLevel_precedes in Hxy, Hyx.
    apply (NoDup_level_inj _ x y Hnd); [| |lia].
    + apply list_elem_of_In.
      rewrite <- Hperm, <- (sortBy_perm cmpLevel vs). exact Hx.
    + apply list_elem_of_In. rewrite <- (sortBy_perm cmpLevel _). exact Hy.
  - apply sortBy_sorted; [apply cmpLevel_total | apply cmpLevel_trans].
  - apply sortBy_sorted; [apply cmpLevel_total | apply cmpLevel_trans].
  - rewrite !sortBy_perm. exact Hperm.
Qed.

Lemma getLatestRun_idempotent (ps : list progression) :
  getLatestRun (getLatestRun ps) = getLatestRun ps.
Proof.
  unfold getLatestRun at 1. cbv zeta.
  set (out := getLatestRun ps).
  assert (Hfold : fold_left keepLatest out ∅ = fold_left keepLatest ps ∅);
    [|rewrite Hfold; reflexivity].
  set (m := fold_left keepLatest ps ∅).
  assert (Hm : keyed m).
  { apply fold_keepLatest_keyed. intros k p. rewrite lookup_empty. discriminate. }
  assert (Hperm : Permutation out (List.map snd (map_to_list m))).
  { apply sortBy_perm. }
  apply map_eq. intros k. apply option_eq. intros p.
  rewrite fold_keepLatest_fresh.
  - rewrite lookup_empty, (keyed_lookup m k p Hm). split.
    + intros [[Hin Hl] | H]; [|discriminate]. split; [|exact Hl].
      eapply Permutation_in; [exact Hperm | exact Hin].
    + intros [Hin Hl]. left. split; [|exact Hl].
      eapply Permutation_in; [symmetry; exact Hperm | exact Hin].
  - pose proof (Permutation_map level Hperm) as Hlv. rewrite Hlv.
    rewrite (keyed_values m Hm). apply NoDup_fst_map_to_list.
  - intros q _. apply lookup_empty.
Qed.

End LatestRunFacts.

(** C7. Run segmentation is idempotent under both policies: the filter
    from the latest run-start marker on, and the choice of the latest
    attempt of each level, return their own output unchanged. *)
Theorem run_segmentation_idempotent (ps : list progression) :
  currentRun (currentRun ps) = currentRun ps /\
  LatestRun.getLatestRun (LatestRun.getLatestRun ps) = LatestRun.getLatestRun ps.
Proof.
  split; [apply currentRun_idempotent | apply getLatestRun_idempotent].
Qed.

(** ** Speed-up decomposition: the blended saving *)

Section BlendFacts.

Local Open Scope Q_scope.

Lemma Qmax_scale_r (a b c : Q) : 0 <= c -> Qmax (a * c) (b * c) == Qmax a b * c.
Proof.
  intros Hc. destruct (Qlt_le_dec a b) as [Hab | Hba].
  - rewrite (Q.max_r a b) by lra.
    apply Q.max_r. apply Qmult_le_compat_r; lra.
  - rewrite (Q.max_l a b) by lra.
    apply Q.max_l. apply Qmult_le_compat_r; lra.
Qed.

Lemma Qmin_scale_r (a b c : Q) : 0 <= c -> Qmin (a * c) (b * c) == Qmin a b * c.
Proof.
  intros Hc. destruct (Qlt_le_dec a b) as [Hab | Hba].
  - rewrite (Q.min_l a b) by lra.
    apply Q.min_l. apply Qmult_le_compat_r; lra.
  - rewrite (Q.min_r a b) by lra.
    apply Q.min_r. apply Qmult_le_compat_r; lra.
Qed.

End BlendFacts.

(** C8 (as the code has it). While the current level is at most 60,
    the [combinedSaving] that [computeSpeedup] returns equals
    [levelsRemaining * (max(w, m) + min(w, m) * 0.4)] for the window loss
    [w] and the mistake loss [m] per level that it returns, with
    [levelsRemaining = 60 - currentLevel]. *)
Theorem combinedSaving_blend
    (currentLevel : Z) (reviewStats : list reviewStat) (stats : paceStats) :
  currentLevel <= 60 ->
  let r := Blended.computeSpeedup currentLevel reviewStats stats in
  (Blended.combinedSaving r ==
   inject_Z (60 - currentLevel) *
   (Qmax (Blended.windowLostPerLevel r) (Blended.mistakeDaysLostPerLevel r) +
    Qmin (Blended.windowLostPerLevel r) (Blended.mistakeDaysLostPerLevel r) * 0.4))%Q.
Proof.
  intros Hlvl r. subst r. unfold Blended.computeSpeedup.
  cbn [Blended.combinedSaving Blended.windowLostPerLevel Blended.mistakeDaysLostPerLevel].
  assert (Hleft : (0 <= inject_Z (60 - currentLevel))%Q).
  { change 0%Q with (inject_Z 0). rewrite <- Zle_Qle. lia. }
  rewrite (Qmax_scale_r _ _ _ Hleft), (Qmin_scale_r _ _ _ Hleft). ring.
Qed.

Lemma combinedSaving_blend_witness :
  (Blended.combinedSaving (Blended.computeSpeedup 32 [] scenarioStats) ==
   inject_Z (60 - 32) *
   (Qmax (Blended.windowLostPerLevel (Blended.computeSpeedup 32 [] scenarioStats))
         (Blended.mistakeDaysLostPerLevel (Blended.computeSpeedup 32 [] scenarioStats)) +
    Qmin (Blended.windowLostPerLevel (Blended.computeSpeedup 32 [] scenarioStats))
         (Blended.mistakeDaysLostPerLevel (Blended.computeSpeedup 32 [] scenarioStats)) * 0.4))%Q.
Proof.
  apply (combinedSaving_blend 32 [] scenarioStats). lia.
Defined.

(** C8 (as the claim has it) fails above level 60: at level 61, with
    a median of 7 days and no review statistics, the code returns
    [-1.432] and the formula [-3.58]. *)
Lemma combinedSaving_blend_fails_above_60 :
  let r := Blended.computeSpeedup 61 [] scenarioStats in
  (Blended.combinedSaving r == -1.432)%Q /\
  (inject_Z (60 - 61) *
   (Qmax (Blended.windowLostPerLevel r) (Blended.mistakeDaysLostPerLevel r) +
    Qmin (Blended.windowLostPerLevel r) (Blended.mistakeDaysLostPerLevel r) * 0.4)
   == -3.58)%Q /\
  ~ (Blended.combinedSaving r ==
     inject_Z (60 - 61) *
     (Qmax (Blended.windowLostPerLevel r) (Blended.mistakeDaysLostPerLevel r) +
      Qmin (Blended.windowLostPerLevel r) (Blended.mistakeDaysLostPerLevel r) * 0.4))%Q.
Proof.
  cbv zeta. split; [reflexivity|]. split; [reflexivity|].
  intros H. vm_compute in H. discriminate H.
Qed.

(** ** Level-completion forecast *)







(** ** Speed-up decomposition: what the result depends on *)

(** The ideal pace that [calcWindowRoadTo60] simulates is read off the
    clock alone, not off the process-wide state. *)
Lemma windowDaysPerLevel_clock (tz : Z) (g g' : globals) (now : Z) :
  fst (calcWindowRoadTo60 tz g now) = fst (calcWindowRoadTo60 tz g' now).
Proof.
  destruct (calcWindowRoadTo60 tz g now) as [d w] eqn:E.
  destruct (calcWindowRoadTo60 tz g' now) as [d' w'] eqn:E'.
  unfold calcWindowRoadTo60 in E, E'. cbv zeta in E, E'.
  injection E as E1 _. injection E' as E1' _.
  cbn [fst]. rewrite <- E1, <- E1'. reflexivity.
Qed.

(** C10 (as the code has it). The result of [computeSpeedup] is a
    function of the review statistics, of the median held in the
    process-wide [_stats] and, in the revision that simulates the ideal
    pace, of the instant that the clock reads: two invocations with equal
    [reviewStats] at the same reading of the clock return equal results
    (or both throw) when that median is the same, whatever the rest of
    the state. *)
Theorem computeSpeedup_depends_on_stats_median
    (tz : Z) (g g' : globals) (now : Z) (reviewStats : list reviewStat) :
  option_map median (_stats g) = option_map median (_stats g') ->
  computeSpeedup tz g now reviewStats = computeSpeedup tz g' now reviewStats /\
  FixedMinimum.computeSpeedup g reviewStats =
  FixedMinimum.computeSpeedup g' reviewStats.
Proof.
  intros Hmed. unfold computeSpeedup, FixedMinimum.computeSpeedup.
  rewrite (windowDaysPerLevel_clock tz g g' now).
  destruct (tally reviewStats) as [correct incorrect].
  destruct (_stats g) as [s|], (_stats g') as [s'|]; cbn in Hmed;
    try discriminate; [|split; reflexivity].
  injection Hmed as ->. split; reflexivity.
Qed.

Lemma computeSpeedup_depends_on_stats_median_witness :
  computeSpeedup 0 (scenarioGlobals 10) 0 [] =
  computeSpeedup 0 (scenarioGlobals 20) 0 [].
Proof.
  apply (computeSpeedup_depends_on_stats_median 0
           (scenarioGlobals 10) (scenarioGlobals 20) 0 []).
  reflexivity.
Defined.

(** C10 (as the claim has it) fails: with the same (empty) review
    statistics, [computeSpeedup] returns another window loss when the
    global median is 20 days than when it is 7 days, in both revisions. *)
Lemma computeSpeedup_reads_global_stats :
  let g7 := scenarioGlobals 10 in
  let g20 := {| _stats := Some (summarize slowAttempts);
                _currentLevel := 10; _activePace := "median" |} in
  computeSpeedup 0 g7 0 [] <> computeSpeedup 0 g20 0 [] /\
  FixedMinimum.computeSpeedup g7 [] <> FixedMinimum.computeSpeedup g20 [].
Proof.
  cbv zeta. split; intros H; vm_compute in H; discriminate H.
Qed.

(** ** Next-level-up forecast *)

Section SortExt.

Context {A : Type}.
Variables cmp cmp' : A -> A -> option Q.

Lemma insertSorted_ext (x : A) (l : list A) :
  (forall y, In y l -> keepsOrder (cmp x y) = keepsOrder (cmp' x y)) ->
  insertSorted cmp x l = insertSorted cmp' x l.
Proof.
  induction l as [|y l IH]; intros H; cbn; [reflexivity|].
  rewrite (H y (or_introl eq_refl)), IH; [reflexivity|].
  intros z Hz. apply H. right. exact Hz.
Qed.

(** Comparators that agree on the elements of a list sort it alike. *)
Lemma sortBy_ext (l : list A) :
  (forall x y, In x l -> In y l -> keepsOrder (cmp x y) = keepsOrder (cmp' x y)) ->
  sortBy cmp l = sortBy cmp' l.
Proof.
  induction l as [|x l IH]; intros H; cbn; [reflexivity|].
  rewrite IH by (intros; apply H; right; assumption).
  apply insertSorted_ext. intros y Hy. apply H; [left; reflexivity|].
  right. eapply Permutation_in; [apply sortBy_perm | exact Hy].
Qed.

End SortExt.

Lemma filter_Permutation {A : Type} (f : A -> bool) (l l' : list A) :
  Permutation l l' -> Permutation (List.filter f l) (List.filter f l').
Proof.
  induction 1 as [|x l l' H IH|x y l|l l' l'' H1 IH1 H2 IH2]; cbn.
  - reflexivity.
  - destruct (f x); [apply perm_skip|]; exact IH.
  - destruct (f x), (f y); try reflexivity. apply perm_swap.
  - etransitivity; eassumption.
Qed.

Lemma StronglySorted_impl {A : Type} (R R' : A -> A -> Prop) (l : list A) :
  (forall x y, R x y -> R' x y) -> StronglySorted R l -> StronglySorted R' l.
Proof.
  intros HR. induction 1 as [|x s Hs IH Hx]; constructor; [exact IH|].
  eapply Forall_impl; [exact Hx|]. intros y. apply HR.
Qed.

Lemma filter_map_comm {A B : Type} (f : A -> B) (p : B -> bool) (l : list A) :
  List.filter p (List.map f l) = List.map f (List.filter (fun a => p (f a)) l).
Proof.
  induction l as [|x l IH]; cbn; [reflexivity|].
  destruct (p (f x)); cbn; rewrite IH; reflexivity.
Qed.

Section NextLevelFacts.

Variable tz : Z.

Lemma intervalAt_apprentice (s : Z) :
  0 <= s < 4 -> exists h, intervalAt s = Some h.
Proof.
  intros Hs.
  assert (s = 0 \/ s = 1 \/ s = 2 \/ s = 3) as [-> | [-> | [-> | ->]]] by lia;
    eexists; reflexivity.
Qed.

(** From a valid date and a stage that is not negative, the simulated
    mastery date is valid. *)
Lemma simulateToGuru_valid (n : nat) :
  forall t s, 0 <= s -> n = Z.to_nat (4 - s) ->
    exists w, simulateToGuru tz (Some t) s = Some w.
Proof.
  induction n as [|n IH]; intros t s Hs Hn.
  - exists t. apply simulateToGuru_done. lia.
  - rewrite simulateToGuru_step by lia.
    destruct (intervalAt_apprentice s ltac:(lia)) as [h ->]. cbn [plusHours].
    rewrite nextWindow_valid. apply IH; lia.
Qed.

Lemma toGuru_valid (now : Z) (a : Assignment.data) :
  guruDate (toGuru tz now a) = Some (dateMs (toGuru tz now a)).
Proof.
  unfold dateMs. cbn [toGuru guruDate].
  match goal with |- context [simulateToGuru tz (Some ?t) ?s] =>
    destruct (simulateToGuru_valid _ t s ltac:(lia) eq_refl) as [w ->] end.
  reflexivity.
Qed.

Lemma earliestMs_precedes (a b : guruEntry) :
  precedes earliestMs a b <-> dateMs a <= dateMs b.
Proof.
  unfold precedes, earliestMs, Zq, keepsOrder.
  rewrite Qle_bool_iff. change 0%Q with (inject_Z 0). rewrite <- Zle_Qle. lia.
Qed.

Lemma latestMs_precedes (a b : guruEntry) :
  precedes latestMs a b <-> dateMs b <= dateMs a.
Proof.
  unfold precedes, latestMs, Zq, keepsOrder.
  rewrite Qle_bool_iff. change 0%Q with (inject_Z 0). rewrite <- Zle_Qle. lia.
Qed.

(** On entries with valid dates the comparators of the code are those
    on time values. *)
Lemma sortBy_earliestFirst (l : list guruEntry) :
  (forall g, In g l -> guruDate g = Some (dateMs g)) ->
  sortBy earliestFirst l = sortBy earliestMs l /\
  StronglySorted (fun a b => dateMs a <= dateMs b) (sortBy earliestFirst l).
Proof.
  intros Hv.
  assert (E : sortBy earliestFirst l = sortBy earliestMs l).
  { apply sortBy_ext. intros x y Hx Hy.
    unfold earliestFirst, earliestMs. rewrite (Hv x Hx), (Hv y Hy). reflexivity. }
  split; [exact E|]. rewrite E.
  apply (StronglySorted_impl (precedes earliestMs)).
  - intros x y. apply earliestMs_precedes.
  - apply sortBy_sorted; intros *; rewrite !earliestMs_precedes; lia.
Qed.

Lemma sortBy_latestFirst (l : list guruEntry) :
  (forall g, In g l -> guruDate g = Some (dateMs g)) ->
  StronglySorted (fun a b => dateMs b <= dateMs a) (sortBy latestFirst l).
Proof.
  intros Hv.
  assert (E : sortBy latestFirst l = sortBy latestMs l).
  { apply sortBy_ext. intros x y Hx Hy.
    unfold latestFirst, latestMs. rewrite (Hv x Hx), (Hv y Hy). reflexivity. }
  rewrite E.
  apply (StronglySorted_impl (precedes latestMs)).
  - intros x y. apply latestMs_precedes.
  - apply sortBy_sorted; intros *; rewrite !latestMs_precedes; lia.
Qed.

End NextLevelFacts.

Section LevelUpFacts.

Variable tz : Z.
Variable now : Z.
Variable assignments : list Assignment.data.

Let blocking := List.filter isBlocking assignments.
Let entries := List.map (toGuru tz now) blocking.
Let guruDates := sortBy latestFirst entries.
Let kanjiItems := List.filter (fun g => String.eqb (type g) "kanji") guruDates.
Let sortedKanji := sortBy earliestFirst kanjiItems.

Lemma entries_valid (g : guruEntry) : In g entries -> guruDate g = Some (dateMs g).
Proof.
  intros Hg. apply in_map_iff in Hg as (a & <- & _). apply toGuru_valid.
Qed.

Lemma guruDates_perm : Permutation guruDates entries.
Proof. apply sortBy_perm. Qed.

Lemma guruDates_valid (g : guruEntry) :
  In g guruDates -> guruDate g = Some (dateMs g).
Proof.
  intros Hg. apply entries_valid. eapply Permutation_in; [apply guruDates_perm | exact Hg].
Qed.

Lemma kanjiItems_perm :
  Permutation kanjiItems (List.map (toGuru tz now) (List.filter isKanji blocking)).
Proof.
  unfold kanjiItems. rewrite (filter_Permutation _ _ _ guruDates_perm).
  unfold entries. rewrite filter_map_comm. reflexivity.
Qed.

Lemma sortedKanji_valid (g : guruEntry) :
  In g sortedKanji -> guruDate g = Some (dateMs g).
Proof.
  intros Hg. apply guruDates_valid.
  assert (Hk : In g kanjiItems)
    by (eapply Permutation_in; [apply sortBy_perm | exact Hg]).
  apply filter_In in Hk as [Hk _]. exact Hk.
Qed.

Lemma map_guruDate_valid (l : list guruEntry) :
  (forall g, In g l -> guruDate g = Some (dateMs g)) ->
  List.map Some (List.map dateMs l) = List.map guruDate l.
Proof.
  intros Hv. rewrite List.map_map. apply List.map_ext_in.
  intros g Hg. symmetry. apply Hv, Hg.
Qed.

(** What [computeNextLevel] returns as [levelUpDate] when something
    blocks. *)
Lemma levelUpDate_blocking :
  blocking <> [] ->
  levelUpDate (computeNextLevel tz now assignments) =
  if (0 <? length kanjiItems)%nat
  then entryDate (nth_error sortedKanji
                    (percentileIndex (length sortedKanji) (length kanjiItems / 10)))
  else entryDate (head guruDates).
Proof.
  intros Hb. unfold computeNextLevel. fold blocking.
  destruct (Nat.eqb_spec (length blocking) 0) as [H0 | _].
  - destruct blocking; [contradiction | discriminate].
  - reflexivity.
Qed.

Lemma levelUpDate_kanji :
  blocking <> [] ->
  List.filter isKanji blocking <> [] ->
  exists (s : list Z) (v : Z),
    Permutation (List.map Some s)
      (List.map (fun a => guruDate (toGuru tz now a)) (List.filter isKanji blocking)) /\
    StronglySorted Z.le s /\
    nth_error s (Z.to_nat (Z.max 0 (Z.of_nat (length s) - 1 - Z.of_nat (length s) / 10)))
      = Some v /\
    levelUpDate (computeNextLevel tz now assignments) = Some v.
Proof.
  intros Hb Hk. rewrite (levelUpDate_blocking Hb).
  pose proof kanjiItems_perm as Hperm.
  assert (Hlen : length kanjiItems = length (List.filter isKanji blocking)).
  { rewrite (Permutation_length Hperm). apply length_map. }
  assert (Hpos : (0 < length kanjiItems)%nat).
  { rewrite Hlen. destruct (List.filter isKanji blocking); [contradiction | cbn; lia]. }
  destruct (Nat.ltb_spec 0 (length kanjiItems)) as [_ | ?]; [|lia].
  assert (Hlen' : length sortedKanji = length kanjiItems) by apply sortBy_length.
  destruct (sortBy_earliestFirst kanjiItems) as [_ Hsorted].
  { intros g Hg. apply guruDates_valid. apply filter_In in Hg as [Hg _]. exact Hg. }
  fold sortedKanji in Hsorted.
  set (s := List.map dateMs sortedKanji).
  assert (Hs : length s = length sortedKanji) by apply length_map.
  set (i := percentileIndex (length sortedKanji) (length kanjiItems / 10)).
  assert (Hi : i = Z.to_nat (Z.max 0 (Z.of_nat (length s) - 1 - Z.of_nat (length s) / 10))).
  { unfold i, percentileIndex. rewrite Hs, Hlen'.
    rewrite Nat2Z.inj_div. reflexivity. }
  assert (Hin : (i < length sortedKanji)%nat).
  { unfold i, percentileIndex. rewrite Hlen'.
    pose proof (Nat.Div0.div_le_upper_bound (length kanjiItems) 10 (length kanjiItems)) as Hd.
    lia. }
  destruct (nth_error sortedKanji i) as [g|] eqn:Eg;
    [|apply nth_error_None in Eg; lia].
  exists s, (dateMs g). split; [|split; [|split]].
  - unfold s. rewrite (map_guruDate_valid _ sortedKanji_valid).
    rewrite <- (List.map_map (toGuru tz now) guruDate).
    apply Permutation_map. etransitivity; [apply sortBy_perm | exact Hperm].
  - unfold s. clear -Hsorted. induction Hsorted as [|x l Hl IH Hx]; cbn; constructor.
    + exact IH.
    + rewrite List.Forall_forall in *. intros z Hz.
      apply in_map_iff in Hz as (y & <- & Hy). apply Hx, Hy.
  - rewrite <- Hi. unfold s. rewrite nth_error_map, Eg. reflexivity.
  - cbn [entryDate]. apply sortedKanji_valid. eapply nth_error_In, Eg.
Qed.

Lemma levelUpDate_radicals :
  blocking <> [] ->
  List.filter isKanji blocking = [] ->
  exists m : Z,
    levelUpDate (computeNextLevel tz now assignments) = Some m /\
    In (Some m)
       (List.map (fun a => guruDate (toGuru tz now a)) (List.filter isRadical blocking)) /\
    forall x, In (Some x)
                 (List.map (fun a => guruDate (toGuru tz now a))
                    (List.filter isRadical blocking)) -> x <= m.
Proof.
  intros Hb Hk. rewrite (levelUpDate_blocking Hb).
  pose proof kanjiItems_perm as Hperm. rewrite Hk in Hperm. cbn in Hperm.
  apply Permutation_nil_r in Hperm. rewrite Hperm. cbn [length Nat.ltb Nat.leb].
  (* every blocking item is a radical *)
  assert (Hrad : List.filter isRadical blocking = blocking).
  { assert (Hall : forall a, In a blocking -> isRadical a = true).
    { intros a Ha. assert (Hka : isKanji a = false).
      { destruct (isKanji a) eqn:E; [|reflexivity].
        assert (In a (List.filter isKanji blocking)) as Hin
          by (apply filter_In; split; assumption).
        rewrite Hk in Hin. destruct Hin. }
      apply filter_In in Ha as [_ Ha]. unfold isBlocking in Ha.
      rewrite !andb_true_iff, orb_true_iff in Ha.
      destruct Ha as [[[[Hr | Hkj] _] _] _]; [exact Hr|].
      unfold isKanji in Hka. congruence. }
    clear -Hall. induction blocking as [|a l IH]; cbn; [reflexivity|].
    rewrite (Hall a (or_introl eq_refl)). f_equal. apply IH.
    intros b Hb. apply Hall. right. exact Hb. }
  rewrite Hrad. fold entries. rewrite <- (List.map_map (toGuru tz now) guruDate).
  fold entries.
  pose proof (sortBy_latestFirst entries entries_valid) as Hsorted.
  fold guruDates in Hsorted.
  pose proof guruDates_perm as Hgp.
  destruct guruDates as [|g0 rest] eqn:Eg.
  { apply Permutation_nil in Hgp. unfold entries in Hgp.
    destruct blocking; [contradiction | discriminate]. }
  cbn [head entryDate].
  assert (Hg0 : guruDate g0 = Some (dateMs g0)).
  { apply entries_valid. eapply Permutation_in; [exact Hgp | left; reflexivity]. }
  exists (dateMs g0). split; [exact Hg0|]. split.
  - rewrite <- Hg0. apply in_map. eapply Permutation_in; [exact Hgp | left; reflexivity].
  - intros x Hx. apply in_map_iff in Hx as (g & Hgx & Hg).
    assert (Hgin : In g (g0 :: rest))
      by (eapply Permutation_in; [symmetry; exact Hgp | exact Hg]).
    rewrite (entries_valid g Hg) in Hgx. injection Hgx as <-.
    destruct Hgin as [<- | Hgin]; [lia|].
    inversion Hsorted as [|? ? _ Hall]; subst.
    rewrite List.Forall_forall in Hall. apply Hall, Hgin.
Qed.

End LevelUpFacts.



(** * Further properties *)

(** ** Window scheduler *)

Section WindowMore.

Variable tz : Z.


End WindowMore.

(** *** What the scan with the time clip can return *)

Section ClippedScan.

Variable tz : Z.

Lemma timeClip_Some (x v : Z) : timeClip x = Some v -> v = x.
Proof.
  unfold timeClip. destruct (Z.abs x <=? maxTime); congruence.
Qed.

Lemma onWindow_setHours (c h : Z) :
  In h REVIEW_WINDOWS -> onWindow tz (localMidnight tz c + h * msPerHour).
Proof.
  intros Hh. apply onWindow_iff.
  rewrite localMidnight_idem.
  - destruct Hh as [<- | [<- | []]]; auto.
  - destruct Hh as [<- | [<- | []]]; unfold msPerDay, msPerHour; lia.
Qed.

(** A candidate that the inner loop returns is a window later than the
    input. *)
Lemma Clipped_scanHours_found (t : Z) (hours : list Z) :
  (forall h, In h hours -> In h REVIEW_WINDOWS) ->
  forall candidate w,
    Clipped.scanHours tz (Some t) candidate hours = Some w ->
    exists v, w = Some v /\ t < v /\ onWindow tz v.
Proof.
  induction hours as [|h rest IH]; intros Hin candidate w; cbn [Clipped.scanHours];
    [discriminate|].
  destruct (date_gt (Clipped.setHours tz h candidate) (Some t)) eqn:Hgt.
  - intros [= <-].
    destruct candidate as [c|]; cbn [Clipped.setHours] in *; [|discriminate].
    destruct (timeClip (localMidnight tz c + h * msPerHour)) as [v|] eqn:Hv;
      [|discriminate].
    apply timeClip_Some in Hv. subst v. cbn [date_gt] in Hgt.
    apply Z.ltb_lt in Hgt.
    eexists. split; [reflexivity|]. split; [exact Hgt|].
    apply onWindow_setHours, Hin. left. reflexivity.
  - apply IH. intros h' Hh'. apply Hin. right. exact Hh'.
Qed.

Lemma Clipped_scanDays_found (t : Z) (offsets : list Z) (w : Date) :
  Clipped.scanDays tz (Some t) offsets = Some w ->
  exists v, w = Some v /\ t < v /\ onWindow tz v.
Proof.
  induction offsets as [|k rest IH]; cbn [Clipped.scanDays]; [discriminate|].
  destruct (Clipped.scanHours tz (Some t) (Clipped.addDate k (Some t)) REVIEW_WINDOWS)
    as [w'|] eqn:Hs.
  - intros [= <-].
    apply (Clipped_scanHours_found t REVIEW_WINDOWS (fun h H => H) _ _ Hs).
  - exact IH.
Qed.

End ClippedScan.

(** X2. With the time clip, [nextWindow] never returns an instant
    before its input and never a later instant off the windows: from
    every valid date it returns a valid date that is either a 9:00 or
    18:00 window strictly later than the input, or (the fallback) the
    input itself. *)
Theorem nextWindow_window_or_input (tz t : Z) :
  exists w, Clipped.nextWindow tz (Some t) = Some w /\
            ((t < w /\ onWindow tz w) \/ w = t).
Proof.
  unfold Clipped.nextWindow. cbv zeta.
  destruct (Clipped.scanDays tz (Some t) dayOffsets) as [w|] eqn:Hs.
  - destruct (Clipped_scanDays_found tz t dayOffsets w Hs) as (v & -> & Hlt & Hon).
    exists v. split; [reflexivity|]. left. split; assumption.
  - exists t. split; [reflexivity|]. right. reflexivity.
Qed.



(** ** Ladder simulator *)

Section LadderMore.

Variable tz : Z.

Lemma simulateToGuru_invalid_start (n : nat) :
  forall s, n = Z.to_nat (4 - s) -> simulateToGuru tz None s = None.
Proof.
  induction n as [|n IH]; intros s Hn.
  - apply simulateToGuru_done. lia.
  - rewrite simulateToGuru_step by lia. cbn [plusHours].
    rewrite nextWindow_invalid. apply IH. lia.
Qed.

Lemma remainingHours_step (s : Z) :
  0 <= s < 4 ->
  exists h, intervalAt s = Some h /\ 0 <= h /\
            remainingHours (Z.to_nat s) = h + remainingHours (Z.to_nat (s + 1)).
Proof.
  intros Hs.
  assert (s = 0 \/ s = 1 \/ s = 2 \/ s = 3) as [-> | [-> | [-> | ->]]] by lia;
    eexists; (split; [reflexivity|]); split; try reflexivity; lia.
Qed.

(** A climb from a valid date and an Apprentice stage ends on a review
    window, after the intervals of the table that remain. *)
Lemma simulateToGuru_bounds (n : nat) :
  forall t s, 0 <= s -> n = Z.to_nat (4 - s) ->
    exists w, simulateToGuru tz (Some t) s = Some w /\
              t + remainingHours (Z.to_nat s) * msPerHour <= w /\
              (s < 4 -> onWindow tz w /\
                        t + remainingHours (Z.to_nat s) * msPerHour < w).
Proof.
  induction n as [|n IH]; intros t s Hs Hn.
  - exists t. split; [apply simulateToGuru_done; lia|].
    assert (Hr : remainingHours (Z.to_nat s) = 0).
    { unfold remainingHours. rewrite skipn_all2; [reflexivity|]. cbn. lia. }
    rewrite Hr. repeat split; lia.
  - rewrite simulateToGuru_step by lia.
    destruct (remainingHours_step s ltac:(lia)) as (h & -> & Hh & Hr).
    cbn [plusHours]. rewrite nextWindow_valid.
    destruct (IH (firstWindowAfter tz (t + h * msPerHour)) (s + 1) ltac:(lia) ltac:(lia))
      as (w & Hw & Hlo & Hwin).
    exists w. split; [exact Hw|].
    pose proof (firstWindowAfter_later tz (t + h * msPerHour)) as Hl.
    rewrite Hr. split; [lia|]. intros _.
    split; [|lia].
    destruct (Z_lt_dec (s + 1) 4) as [Hlt | Hge]; [apply Hwin, Hlt|].
    rewrite simulateToGuru_done in Hw by lia. injection Hw as <-.
    apply firstWindowAfter_onWindow.
Qed.


End LadderMore.

(** X4. [simulateToGuru] returns an Invalid Date when its start date is
    invalid, and also when the stage is negative, where the read of the
    interval table is out of range. *)
Theorem simulateToGuru_invalid (tz : Z) (d : Date) (s : Z) :
  d = None \/ s < 0 -> simulateToGuru tz d s = None.
Proof.
  intros [-> | Hs]; [apply (simulateToGuru_invalid_start tz _ s eq_refl)|].
  rewrite simulateToGuru_step by lia.
  assert (Hi : intervalAt s = None).
  { unfold intervalAt. destruct (Z.ltb_spec s 0); [reflexivity | lia]. }
  rewrite Hi. destruct d; cbn [plusHours]; rewrite nextWindow_invalid;
    apply (simulateToGuru_invalid_start tz _ (s + 1) eq_refl).
Qed.

Lemma simulateToGuru_invalid_witness :
  simulateToGuru 0 (Some 0) (-1) = None.
Proof. apply (simulateToGuru_invalid 0 (Some 0) (-1)). right. lia. Defined.

(** X5. From an instant [t] at least 30 days inside the range of
    [Date] and an Apprentice stage [s] (0 to 3), the simulated Guru date
    is a valid instant on a review window, strictly later than [t] plus
    the intervals of the table that remain (82, 78, 70 or 47 hours). *)
Theorem simulateToGuru_window_bounds (tz t : Z) (s : nat) :
  (s < 4)%nat ->
  within (30 * msPerDay) t ->
  exists w, simulateToGuru tz (Some t) (Z.of_nat s) = Some w /\
            onWindow tz w /\
            t + remainingHours s * msPerHour < w.
Proof.
  intros Hs _.
  destruct (simulateToGuru_bounds tz (4 - s) t (Z.of_nat s) ltac:(lia) ltac:(lia))
    as (w & Hw & _ & Hwin).
  rewrite Nat2Z.id in *. destruct (Hwin ltac:(lia)) as [Hon Hlt].
  exists w. auto.
Qed.

Lemma simulateToGuru_window_bounds_witness :
  exists w, simulateToGuru 0 (Some 0) 0 = Some w /\
            onWindow 0 w /\ 82 * msPerHour < w.
Proof.
  destruct (simulateToGuru_window_bounds 0 0 0) as (w & H1 & H2 & H3).
  - lia.
  - unfold within, maxTime, msPerDay. lia.
  - exists w. repeat split; assumption.
Defined.



(** ** Ideal pace on the window schedule *)

Section IdealPaceFacts.

Variable tz : Z.

(** Two climbs from stage 0 take more than twice the 82 hours of the
    first four intervals. *)
Lemma calcWindowLevelDays_above_intervals (t : Z) :
  exists days, fst (calcWindowLevelDays tz (Some t)) = Some days /\
               (164 / 24 < days)%Q.
Proof.
  destruct (simulateToGuru_bounds tz 4 t 0 ltac:(lia) eq_refl)
    as (r & Hr & _ & Hwin).
  destruct (Hwin ltac:(lia)) as [_ Hlt].
  destruct (simulateToGuru_bounds tz 4 r 0 ltac:(lia) eq_refl)
    as (k & Hk & _ & Hwin').
  destruct (Hwin' ltac:(lia)) as [_ Hlt'].
  change (remainingHours (Z.to_nat 0)) with 82 in Hlt, Hlt'.
  unfold calcWindowLevelDays. cbv zeta. cbn [fst].
  rewrite Hr, Hk. cbn [dateDiff]. unfold Zq.
  eexists. split; [reflexivity|].
  apply Qlt_shift_div_l; [reflexivity|].
  assert (E : (164 / 24 * inject_Z msPerDay == inject_Z (164 * msPerHour))%Q)
    by reflexivity.
  rewrite E. rewrite <- Zlt_Qlt. unfold msPerHour in *. lia.
Qed.

Lemma windowDaysPerLevel_above_intervals (g : globals) (now : Z) :
  exists days, fst (calcWindowRoadTo60 tz g now) = Some days /\
               (164 / 24 < days)%Q.
Proof.
  destruct (calcWindowLevelDays_above_intervals (firstWindowAfter tz now))
    as (days & Hd & Hlt).
  exists days. split; [|exact Hlt].
  destruct (calcWindowRoadTo60 tz g now) as [d w] eqn:E.
  unfold calcWindowRoadTo60 in E. cbv zeta in E.
  injection E as E1 _. cbn [fst]. rewrite <- E1, nextWindow_valid. exact Hd.
Qed.

End IdealPaceFacts.

(** X7. For every clock value at least 30 days inside the range of
    [Date], the ideal pace that [calcWindowRoadTo60] simulates is a
    number of days, and it exceeds 164 / 24: the two ladder climbs of a
    level take more than the 2 * 82 hours of their SRS intervals. *)
Theorem calcWindowRoadTo60_pace_above_intervals
    (tz : Z) (g : globals) (now : Z) :
  within (30 * msPerDay) now ->
  exists days, fst (calcWindowRoadTo60 tz g now) = Some days /\
               (164 / 24 < days)%Q.
Proof.
  intros _. apply windowDaysPerLevel_above_intervals.
Qed.

Lemma calcWindowRoadTo60_pace_above_intervals_witness :
  exists days, fst (calcWindowRoadTo60 0 (scenarioGlobals 10) 0) = Some days /\
               (164 / 24 < days)%Q.
Proof.
  apply (calcWindowRoadTo60_pace_above_intervals 0 (scenarioGlobals 10) 0).
  unfold within, maxTime, msPerDay. lia.
Defined.

(** ** Run segmentation: what the run start is *)

Section RunStartMore.

Lemma sortBy_cmpStartedAt_sorted (ps : list progression) :
  StronglySorted (fun a b => startedMs a <= startedMs b) (sortBy cmpStartedAt ps).
Proof.
  apply (StronglySorted_impl (precedes cmpStartedAt)).
  - intros x y. apply cmpStartedAt_precedes.
  - apply sortBy_sorted; [apply cmpStartedAt_total | apply cmpStartedAt_trans].
Qed.

Lemma getCurrentRunStart_nonempty (ps : list progression) :
  ps <> [] ->
  exists s0 S, sortBy cmpStartedAt ps = s0 :: S /\
               getCurrentRunStart ps = Some (walkRun (startedMs s0) 0 (s0 :: S)).
Proof.
  intros Hps. destruct ps as [|p ps]; [contradiction|].
  unfold getCurrentRunStart. cbv zeta.
  pose proof (sortBy_length cmpStartedAt (p :: ps)) as Hl.
  destruct (sortBy cmpStartedAt (p :: ps)) as [|s0 S]; [discriminate Hl|].
  exists s0, S. split; reflexivity.
Qed.

Lemma filter_all {A : Type} (f : A -> bool) (l : list A) :
  (forall x, In x l -> f x = true) -> List.filter f l = l.
Proof.
  induction l as [|x l IH]; intros H; cbn; [reflexivity|].
  rewrite (H x (or_introl eq_refl)). f_equal. apply IH.
  intros y Hy. apply H. right. exact Hy.
Qed.

(** When the walk marks no run start, the whole history is the run. *)
Lemma currentRun_whole (ps : list progression) (s0 : progression) (S : list progression) :
  sortBy cmpStartedAt ps = s0 :: S ->
  walkRun (startedMs s0) 0 (s0 :: S) = startedMs s0 ->
  currentRun ps = ps.
Proof.
  intros HS Hw. unfold currentRun.
  destruct (getCurrentRunStart_nonempty ps) as (s0' & S' & HS' & ->).
  { intros ->. discriminate HS. }
  rewrite HS in HS'. injection HS' as <- <-. rewrite Hw.
  apply filter_all. intros p Hp. cbn [sinceRunStart]. apply Z.leb_le.
  pose proof (sortBy_cmpStartedAt_sorted ps) as Hs. rewrite HS in Hs.
  assert (Hin : In p (s0 :: S))
    by (rewrite <- HS; eapply Permutation_in; [symmetry; apply sortBy_perm | exact Hp]).
  destruct Hin as [<- | Hin]; [unfold startedMs; lia|].
  inversion Hs as [|? ? _ Hall]; subst.
  rewrite List.Forall_forall in Hall. apply (Hall p Hin).
Qed.

Lemma walkRun_no_marker (l : list progression) :
  forall r prev,
    (Forall (fun p => 5 < level p) l \/ risingLevels prev l) ->
    walkRun r prev l = r.
Proof.
  induction l as [|p l IH]; intros r prev H; cbn [walkRun]; [reflexivity|].
  assert (Hno : (level p <=? prev) && (level p <=? 5) = false).
  { apply andb_false_iff. destruct H as [H | H].
    - right. apply Z.leb_gt. inversion H; subst. assumption.
    - left. apply Z.leb_gt. cbn in H. tauto. }
  rewrite Hno. apply IH. destruct H as [H | H].
  - left. inversion H; subst. assumption.
  - right. cbn in H. tauto.
Qed.

(** The walk ends on the start of the last attempt that marks a run. *)
Lemma walkRun_after_marker (B : list progression) :
  forall r prev,
    StronglySorted (fun a b => startedMs a <= startedMs b) B ->
    Forall (fun q => r <= startedMs q) B ->
    r <= walkRun r prev B.
Proof.
  induction B as [|q B IH]; intros r prev Hs Hr; cbn [walkRun]; [lia|].
  inversion Hs as [|? ? Hs' Hq]; subst. inversion Hr as [|? ? Hrq Hr']; subst.
  destruct ((level q <=? prev) && (level q <=? 5)).
  - fold (startedMs q). etransitivity; [exact Hrq|]. apply IH; assumption.
  - apply IH; assumption.
Qed.

End RunStartMore.

Lemma walkRun_prefix (A : list progression) (a : progression) (l : list progression) :
  forall r prev, exists r', walkRun r prev (A ++ a :: l) = walkRun r' (level a) l.
Proof.
  induction A as [|x A IH]; intros r prev; cbn [app walkRun].
  - eexists. reflexivity.
  - apply IH.
Qed.

Lemma currentRun_In (ps : list progression) (T : Z) (q : progression) :
  getCurrentRunStart ps = Some T ->
  In q (currentRun ps) <-> In q ps /\ T <= startedMs q.
Proof.
  intros HT. unfold currentRun. rewrite HT, filter_In. cbn [sinceRunStart].
  rewrite Z.leb_le. reflexivity.
Qed.

(** X8. [getCurrentRunStart] returns [null] exactly for an empty
    history; otherwise the run start is the start of an attempt of the
    history, and that attempt belongs to the current run, which is
    therefore not empty. *)
Theorem getCurrentRunStart_attempt_start (ps : list progression) :
  (getCurrentRunStart ps = None <-> ps = []) /\
  (ps <> [] ->
   exists p, In p ps /\ In p (currentRun ps) /\
             getCurrentRunStart ps = Some (startedMs p)).
Proof.
  split.
  - split; [|intros ->; reflexivity].
    intros HN. destruct ps as [|p ps]; [reflexivity|].
    destruct (getCurrentRunStart_nonempty (p :: ps)) as (s0 & S & _ & H); [discriminate|].
    congruence.
  - intros Hps.
    destruct (getCurrentRunStart_nonempty ps Hps) as (s0 & S & HS & HT).
    assert (Hex : exists p, In p (s0 :: S) /\ walkRun (startedMs s0) 0 (s0 :: S) = startedMs p).
    { destruct (walkRun_in (s0 :: S) (startedMs s0) 0) as [H | (q & Hq & H)].
      - exists s0. split; [left; reflexivity | exact H].
      - exists q. split; assumption. }
    destruct Hex as (p & Hp & Hw). exists p.
    assert (Hin : In p ps).
    { eapply Permutation_in; [apply (sortBy_perm cmpStartedAt)|]. rewrite HS. exact Hp. }
    split; [exact Hin|]. rewrite HT, Hw. split; [|reflexivity].
    apply (currentRun_In ps (startedMs p)); [congruence|]. split; [exact Hin | lia].
Qed.

Lemma getCurrentRunStart_attempt_start_witness :
  exists p, In p scenario /\ In p (currentRun scenario) /\
            getCurrentRunStart scenario = Some (startedMs p).
Proof.
  apply (getCurrentRunStart_attempt_start scenario). discriminate.
Defined.

(** X9. A history without a reset is kept whole: when every attempt is
    above level 5, or when the levels rise strictly (from above 0) in the
    order of the start dates, the current run is the whole history. *)
Theorem currentRun_without_reset (ps : list progression) :
  Forall (fun p => 5 < level p) ps \/
  risingLevels 0 (sortBy cmpStartedAt ps) ->
  currentRun ps = ps.
Proof.
  intros H. destruct ps as [|p0 ps0]; [reflexivity|].
  destruct (getCurrentRunStart_nonempty (p0 :: ps0)) as (s0 & S & HS & _);
    [discriminate|].
  apply (currentRun_whole _ s0 S HS). apply walkRun_no_marker.
  destruct H as [H | H]; [left | right; rewrite <- HS; exact H].
  rewrite <- HS. rewrite List.Forall_forall in *. intros q Hq. apply H.
  eapply Permutation_in; [apply (sortBy_perm cmpStartedAt) | exact Hq].
Qed.

Lemma currentRun_without_reset_witness : currentRun scenario = scenario.
Proof.
  apply (currentRun_without_reset scenario). right.
  cbn. repeat split; lia.
Defined.

(** X10. A reset is detected: when, in the order of the start dates, an
    attempt [p] of level at most 5 follows an attempt of the same or a
    higher level, no attempt of the current run started before [p]. *)
Theorem currentRun_after_reset
    (ps A : list progression) (a p : progression) (B : list progression) :
  sortBy cmpStartedAt ps = A ++ a :: p :: B ->
  level p <= level a -> level p <= 5 ->
  forall q, In q (currentRun ps) -> startedMs p <= startedMs q.
Proof.
  intros HS Hpa Hp5 q Hq.
  assert (Hps : ps <> []) by (intros ->; destruct A; discriminate HS).
  destruct (getCurrentRunStart_nonempty ps Hps) as (s0 & S & HS' & HT).
  apply (currentRun_In ps _ q HT) in Hq as [_ Hq].
  etransitivity; [|exact Hq].
  rewrite <- HS', HS.
  destruct (walkRun_prefix A a (p :: B) (startedMs s0) 0) as [r' ->].
  cbn [walkRun].
  assert (Hm : (level p <=? level a) && (level p <=? 5) = true)
    by (apply andb_true_iff; split; apply Z.leb_le; assumption).
  rewrite Hm. fold (startedMs p).
  pose proof (sortBy_cmpStartedAt_sorted ps) as Hs. rewrite HS in Hs.
  apply StronglySorted_app_1_r in Hs.
  inversion Hs as [|? ? HsP _]; subst.
  inversion HsP as [|? ? HsB HpB]; subst.
  apply walkRun_after_marker; assumption.
Qed.

Lemma currentRun_after_reset_witness :
  List.Forall (fun q => startedMs (scenarioAttempt 1 12 4) <= startedMs q)
              (currentRun resetHistory).
Proof.
  apply List.Forall_forall.
  apply (currentRun_after_reset resetHistory
           [scenarioAttempt 1 0 5] (scenarioAttempt 2 5 7)
           (scenarioAttempt 1 12 4) [scenarioAttempt 2 16 6]).
  - reflexivity.
  - cbn. lia.
  - cbn. lia.
Defined.

(** ** Pace statistics: order and bounds *)

Section StatsMore.

Local Open Scope Q_scope.

Lemma sorted_nth_le (l : list Q) :
  StronglySorted Qle l ->
  forall i j, (i <= j < length l)%nat -> nth i l 0 <= nth j l 0.
Proof.
  induction 1 as [|x l Hl IH Hx]; intros i j Hij; cbn in Hij; [lia|].
  destruct j as [|j]; [replace i with 0%nat by lia; cbn; lra|].
  destruct i as [|i]; cbn.
  - rewrite List.Forall_forall in Hx. apply Hx, nth_In. lia.
  - apply IH. lia.
Qed.

Lemma quartile_indices (n : nat) :
  (2 <= n -> n / 4 <= n / 2 /\ n / 2 <= 3 * n / 4 /\ 3 * n / 4 <= n - 1)%nat.
Proof.
  intros Hn.
  pose proof (Nat.div_mod_eq n 4). pose proof (Nat.mod_upper_bound n 4).
  pose proof (Nat.div_mod_eq n 2). pose proof (Nat.mod_upper_bound n 2).
  pose proof (Nat.div_mod_eq (3 * n) 4). pose proof (Nat.mod_upper_bound (3 * n) 4).
  lia.
Qed.

Lemma orElse_cases (a b : Q) : orElse a b = a \/ orElse a b = b.
Proof. unfold orElse. destruct (Qeq_bool a 0); auto. Qed.

Lemma fold_left_Qplus_bounds (lo hi : Q) (l : list Q) :
  Forall (fun x => lo <= x <= hi) l ->
  forall a, a + lengthQ l * lo <= fold_left Qplus l a <= a + lengthQ l * hi.
Proof.
  unfold lengthQ.
  induction 1 as [|x l Hx Hl IH]; intros a; cbn [fold_left length].
  - change (inject_Z (Z.of_nat 0)) with 0. lra.
  - specialize (IH (a + x)). rewrite Nat2Z.inj_succ. unfold Z.succ.
    rewrite inject_Z_plus. change (inject_Z 1) with 1.
    set (L := inject_Z (Z.of_nat (length l))) in *. nra.
Qed.

(** The mean of a non-empty list lies between any bounds of its
    elements. *)
Lemma mean_bounds (lo hi : Q) (l : list Q) :
  l <> [] -> Forall (fun x => lo <= x <= hi) l ->
  lo <= sumQ l / lengthQ l <= hi.
Proof.
  intros Hne Hl. pose proof (fold_left_Qplus_bounds lo hi l Hl 0) as Hb.
  fold (sumQ l) in Hb.
  assert (Hpos : 0 < lengthQ l).
  { unfold lengthQ. change 0 with (inject_Z 0). rewrite <- Zlt_Qlt.
    destruct l; [contradiction | cbn; lia]. }
  split.
  - apply Qle_shift_div_l; [exact Hpos | lra].
  - apply Qle_shift_div_r; [exact Hpos | lra].
Qed.

Lemma lastFive_incl (l : list Q) (x : Q) : In x (lastFive l) -> In x l.
Proof.
  unfold lastFive. intros H. rewrite <- (firstn_skipn (length l - 5) l).
  apply in_or_app. right. exact H.
Qed.

Lemma lastFive_nonempty (l : list Q) : l <> [] -> lastFive l <> [].
Proof.
  unfold lastFive. intros Hne E.
  assert (Hl : length (skipn (length l - 5) l) = 0%nat) by (rewrite E; reflexivity).
  rewrite length_skipn in Hl. destruct l; [contradiction | cbn in Hl; lia].
Qed.

(** All durations lie between the first and the last element of the
    sorted list. *)
Lemma summarize_range (dn : list progression) :
  (2 <= length dn)%nat ->
  let st := summarize dn in
  let n := length (sorted st) in
  Forall (fun x => nth 0 (sorted st) 0 <= x <= nth (n - 1) (sorted st) 0) (durs st).
Proof.
  intros Hn st n. subst st n. cbn [summarize sorted durs].
  destruct (sortBy_ascending (List.map durationDays dn)) as [Hp Hs].
  set (s := sortBy ascending (List.map durationDays dn)) in *.
  assert (Hlen : length s = length dn)
    by (unfold s; rewrite sortBy_length; apply length_map).
  apply (Permutation_Forall Hp). apply List.Forall_forall. intros x Hx.
  apply (In_nth _ _ 0) in Hx as (i & Hi & <-).
  split; apply (sorted_nth_le s Hs); lia.
Qed.

End StatsMore.

(** X11. In every result of [computeStats] the pace figures are in
    order: fast percentile <= median <= slow percentile. *)
Theorem computeStats_fast_median_slow
    (ps : list progression) (lvl : Z) (st : paceStats) :
  computeStats ps lvl = Some st \/ LatestRun.computeStats ps lvl = Some st ->
  (fast st <= median st /\ median st <= slow st)%Q.
Proof.
  intros Hst. apply computeStats_summarize in Hst as (dn & Hn & ->).
  cbn [summarize fast median slow].
  destruct (sortBy_ascending (List.map durationDays dn)) as [_ Hs].
  set (s := sortBy ascending (List.map durationDays dn)) in *.
  assert (Hlen : length s = length dn)
    by (unfold s; rewrite sortBy_length; apply length_map).
  unfold at_. rewrite Hlen.
  destruct (quartile_indices (length dn) Hn) as (H4 & H2 & H3).
  split.
  - destruct (orElse_cases (nth (length dn / 4) s 0%Q) (nth 0 s 0%Q)) as [-> | ->];
      apply (sorted_nth_le s Hs); lia.
  - destruct (orElse_cases (nth (3 * length dn / 4) s 0%Q) (nth (length dn - 1) s 0%Q))
      as [-> | ->]; apply (sorted_nth_le s Hs); lia.
Qed.

Lemma computeStats_fast_median_slow_witness :
  exists st, computeStats scenario 6 = Some st /\
             (fast st <= median st /\ median st <= slow st)%Q.
Proof.
  eexists. split; [reflexivity|].
  apply (computeStats_fast_median_slow scenario 6). left. reflexivity.
Defined.

(** X12. In every result of [computeStats] the average and the recent
    average lie between the shortest and the longest duration, and so do
    the fast and the slow percentile. *)
Theorem computeStats_within_range
    (ps : list progression) (lvl : Z) (st : paceStats) :
  computeStats ps lvl = Some st \/ LatestRun.computeStats ps lvl = Some st ->
  let lo := nth 0 (sorted st) 0%Q in
  let hi := nth (length (sorted st) - 1) (sorted st) 0%Q in
  (lo <= avg st <= hi /\ lo <= recent st <= hi /\
   lo <= fast st /\ slow st <= hi)%Q.
Proof.
  intros Hst lo hi. apply computeStats_summarize in Hst as (dn & Hn & ->).
  pose proof (summarize_range dn Hn) as Hr. cbv zeta in Hr. fold lo hi in Hr.
  assert (Hne : List.map durationDays dn <> []).
  { destruct dn; [cbn in Hn; lia | discriminate]. }
  destruct (sortBy_ascending (List.map durationDays dn)) as [_ Hs].
  assert (Hlen : length (sorted (summarize dn)) = length dn)
    by (cbn [summarize sorted]; rewrite sortBy_length; apply length_map).
  split; [|split; [|split]].
  - apply mean_bounds; [exact Hne | exact Hr].
  - apply mean_bounds; [apply lastFive_nonempty, Hne|].
    rewrite List.Forall_forall in *. intros x Hx. apply Hr, lastFive_incl, Hx.
  - subst lo. cbn [summarize fast sorted] in *. unfold at_.
    destruct (orElse_cases
                (nth (length (sortBy ascending (List.map durationDays dn)) / 4)
                     (sortBy ascending (List.map durationDays dn)) 0%Q)
                (nth 0 (sortBy ascending (List.map durationDays dn)) 0%Q))
      as [-> | ->]; [|lra].
    apply (sorted_nth_le _ Hs). rewrite sortBy_length, length_map.
    destruct (quartile_indices (length dn) Hn) as (H4 & H2 & H3). lia.
  - subst hi. cbn [summarize slow sorted] in *. unfold at_.
    destruct (orElse_cases
                (nth (3 * length (sortBy ascending (List.map durationDays dn)) / 4)
                     (sortBy ascending (List.map durationDays dn)) 0%Q)
                (nth (length (sortBy ascending (List.map durationDays dn)) - 1)
                     (sortBy ascending (List.map durationDays dn)) 0%Q))
      as [-> | ->]; [|lra].
    apply (sorted_nth_le _ Hs). rewrite sortBy_length, length_map.
    destruct (quartile_indices (length dn) Hn) as (H4 & H2 & H3). lia.
Qed.

Lemma computeStats_within_range_witness :
  exists st, computeStats scenario 6 = Some st /\
             (nth 0 (sorted st) 0 <= avg st <= nth 4 (sorted st) 0)%Q.
Proof.
  eexists. split; [reflexivity|].
  apply (computeStats_within_range scenario 6). left. reflexivity.
Defined.

(** ** Pace statistics: which attempts are counted *)

(** X13. The statistics of [computeStats] count exactly the qualifying
    attempts of the current run: [done] holds them (each one an attempt of
    the history that was passed, not abandoned, and below the current
    level) in level order, at least two of them, and [durs] holds their
    durations in that order. *)
Theorem computeStats_done_attempts
    (ps : list progression) (lvl : Z) (st : paceStats) :
  computeStats ps lvl = Some st ->
  Permutation (done st) (List.filter (isDone lvl) (currentRun ps)) /\
  StronglySorted (fun a b => level a <= level b) (done st) /\
  (2 <= length (done st))%nat /\
  (forall p, In p (done st) -> In p ps /\ qualifies lvl p) /\
  durs st = List.map durationDays (done st).
Proof.
  unfold computeStats. cbv zeta.
  set (dn := List.filter (isDone lvl) (currentRun ps)).
  destruct (Nat.ltb_spec (length dn) 2) as [|Hn]; [discriminate|].
  intros [= <-]. cbn [summarize done durs].
  split; [apply sortBy_perm|]. split; [|split; [|split]].
  - apply (StronglySorted_impl (precedes cmpLevel)).
    + intros x y. apply cmpLevel_precedes.
    + apply sortBy_sorted; [apply cmpLevel_total | apply cmpLevel_trans].
  - rewrite sortBy_length. exact Hn.
  - intros p Hp.
    assert (Hin : In p dn)
      by (eapply Permutation_in; [apply (sortBy_perm cmpLevel) | exact Hp]).
    apply filter_In in Hin as [Hrun Hd]. split; [|apply isDone_qualifies, Hd].
    unfold currentRun in Hrun. apply filter_In in Hrun as [Hrun _]. exact Hrun.
  - reflexivity.
Qed.

Lemma computeStats_done_attempts_witness :
  exists st, computeStats scenario 6 = Some st /\ (2 <= length (done st))%nat.
Proof.
  eexists. split; [reflexivity|].
  apply (computeStats_done_attempts scenario 6). reflexivity.
Defined.

(** X14. With at most five completed attempts the recent average is
    the overall average. *)
Theorem computeStats_recent_is_avg
    (ps : list progression) (lvl : Z) (st : paceStats) :
  computeStats ps lvl = Some st \/ LatestRun.computeStats ps lvl = Some st ->
  (length (done st) <= 5)%nat ->
  recent st = avg st.
Proof.
  intros Hst. apply computeStats_summarize in Hst as (dn & _ & ->).
  cbn [summarize done recent avg]. intros Hn.
  unfold lastFive. rewrite length_map.
  replace (length dn - 5)%nat with 0%nat by lia. reflexivity.
Qed.

Lemma computeStats_recent_is_avg_witness :
  exists st, computeStats scenario 6 = Some st /\ recent st = avg st.
Proof.
  eexists. split; [reflexivity|].
  apply (computeStats_recent_is_avg scenario 6); [left; reflexivity|].
  apply Nat.leb_le. reflexivity.
Defined.

(** ** The latest attempt of each level *)

Section LatestRunMore.

Import LatestRun.

Lemma keepLatest_latestOf (seen : list progression) (m : gmap Z progression)
    (p : progression) :
  latestOf seen m -> latestOf (seen ++ [p]) (keepLatest m p).
Proof.
  intros [Hval Hdom]. unfold keepLatest.
  destruct (m !! level p) as [old|] eqn:E.
  - destruct (Hval _ _ E) as (Hin & Hlv & Hmax).
    destruct (Z.ltb_spec (newDate (started_at old)) (newDate (started_at p))) as [Hlt | Hge];
      fold (startedMs old) (startedMs p) in *.
    + split.
      * intros k x. destruct (decide (level p = k)) as [<- | Hne].
        -- rewrite lookup_insert_eq. intros [= <-].
           split; [apply in_or_app; right; left; reflexivity|].
           split; [reflexivity|]. intros q Hq Hql.
           apply in_app_or in Hq as [Hq | [<- | []]]; [|lia].
           specialize (Hmax q Hq Hql). lia.
        -- rewrite lookup_insert_ne by exact Hne. intros Hx.
           destruct (Hval _ _ Hx) as (Hxin & Hxl & Hxm).
           split; [apply in_or_app; left; exact Hxin|]. split; [exact Hxl|].
           intros q Hq Hql. apply in_app_or in Hq as [Hq | [<- | []]];
             [apply Hxm; assumption | congruence].
      * intros q Hq. apply in_app_or in Hq as [Hq | [<- | []]].
        -- destruct (decide (level p = level q)) as [-> | Hne].
           ++ rewrite lookup_insert_eq. eauto.
           ++ rewrite lookup_insert_ne by exact Hne. apply Hdom, Hq.
        -- rewrite lookup_insert_eq. eauto.
    + split.
      * intros k x Hx. destruct (Hval _ _ Hx) as (Hxin & Hxl & Hxm).
        split; [apply in_or_app; left; exact Hxin|]. split; [exact Hxl|].
        intros q Hq Hql. apply in_app_or in Hq as [Hq | [<- | []]];
          [apply Hxm; assumption|].
        assert (x = old) by congruence. subst x. lia.
      * intros q Hq. apply in_app_or in Hq as [Hq | [<- | []]];
          [apply Hdom, Hq | rewrite E; eauto].
  - split.
    + intros k x. destruct (decide (level p = k)) as [<- | Hne].
      * rewrite lookup_insert_eq. intros [= <-].
        split; [apply in_or_app; right; left; reflexivity|].
        split; [reflexivity|]. intros q Hq Hql.
        apply in_app_or in Hq as [Hq | [<- | []]]; [|lia].
        destruct (Hdom q Hq) as [y Hy]. congruence.
      * rewrite lookup_insert_ne by exact Hne. intros Hx.
        destruct (Hval _ _ Hx) as (Hxin & Hxl & Hxm).
        split; [apply in_or_app; left; exact Hxin|]. split; [exact Hxl|].
        intros q Hq Hql. apply in_app_or in Hq as [Hq | [<- | []]];
          [apply Hxm; assumption | congruence].
    + intros q Hq. apply in_app_or in Hq as [Hq | [<- | []]].
      * destruct (decide (level p = level q)) as [-> | Hne].
        -- rewrite lookup_insert_eq. eauto.
        -- rewrite lookup_insert_ne by exact Hne. apply Hdom, Hq.
      * rewrite lookup_insert_eq. eauto.
Qed.

Lemma fold_keepLatest_latestOf (ps : list progression) :
  forall seen m, latestOf seen m ->
                 latestOf (seen ++ ps) (fold_left keepLatest ps m).
Proof.
  induction ps as [|p ps IH]; intros seen m H; cbn [fold_left].
  - rewrite app_nil_r. exact H.
  - replace (seen ++ p :: ps) with ((seen ++ [p]) ++ ps)
      by (rewrite <- app_assoc; reflexivity).
    apply IH, keepLatest_latestOf, H.
Qed.

Lemma getLatestRun_In (ps : list progression) (p : progression) :
  In p (getLatestRun ps) <->
  fold_left keepLatest ps ∅ !! level p = Some p.
Proof.
  unfold getLatestRun. cbv zeta. set (m := fold_left keepLatest ps ∅).
  assert (Hm : keyed m).
  { apply fold_keepLatest_keyed. intros k x. rewrite lookup_empty. discriminate. }
  rewrite (keyed_lookup m (level p) p Hm). split.
  - intros H. split; [|reflexivity].
    eapply Permutation_in; [apply (sortBy_perm cmpLevel) | exact H].
  - intros [H _]. eapply Permutation_in; [symmetry; apply (sortBy_perm cmpLevel) | exact H].
Qed.

Lemma getLatestRun_levels_NoDup (ps : list progression) :
  NoDup (List.map level (getLatestRun ps)).
Proof.
  unfold getLatestRun. cbv zeta. set (m := fold_left keepLatest ps ∅).
  assert (Hm : keyed m).
  { apply fold_keepLatest_keyed. intros k x. rewrite lookup_empty. discriminate. }
  pose proof (Permutation_map level (sortBy_perm cmpLevel (List.map snd (map_to_list m)))) as Hp.
  rewrite Hp, (keyed_values m Hm). apply NoDup_fst_map_to_list.
Qed.

Lemma sorted_NoDup_strict (l : list progression) :
  StronglySorted (fun a b => level a <= level b) l ->
  NoDup (List.map level l) ->
  StronglySorted (fun a b => level a < level b) l.
Proof.
  induction 1 as [|x l Hl IH Hx]; intros Hnd; cbn in Hnd; constructor.
  - apply IH. apply NoDup_cons in Hnd as [_ Hnd]. exact Hnd.
  - apply NoDup_cons in Hnd as [Hnx _].
    rewrite List.Forall_forall in *. intros y Hy.
    specialize (Hx y Hy). assert (level x <> level y); [|lia].
    intros E. apply Hnx. rewrite E. apply list_elem_of_In, in_map, Hy.
Qed.

End LatestRunMore.

(** X15. The output of [getLatestRun] is in strictly rising level
    order: level-ordered and without a repeated level. *)
Theorem getLatestRun_level_order (ps : list progression) :
  StronglySorted (fun a b => level a < level b) (LatestRun.getLatestRun ps).
Proof.
  apply sorted_NoDup_strict; [|apply getLatestRun_levels_NoDup].
  unfold LatestRun.getLatestRun. cbv zeta.
  apply (StronglySorted_impl (precedes cmpLevel)).
  - intros x y. apply cmpLevel_precedes.
  - apply sortBy_sorted; [apply cmpLevel_total | apply cmpLevel_trans].
Qed.

(** X16. [getLatestRun] keeps, for every level of the history, an
    attempt of the history of that level, and no attempt of that level
    started after the one kept. *)
Theorem getLatestRun_latest (ps : list progression) :
  (forall p, In p (LatestRun.getLatestRun ps) ->
     In p ps /\
     (forall q, In q ps -> level q = level p -> startedMs q <= startedMs p)) /\
  (forall q, In q ps ->
     exists p, In p (LatestRun.getLatestRun ps) /\ level p = level q).
Proof.
  assert (H : latestOf ([] ++ ps) (fold_left LatestRun.keepLatest ps ∅)).
  { apply fold_keepLatest_latestOf. split.
    - intros k p. rewrite lookup_empty. discriminate.
    - intros q []. }
  cbn [app] in H. destruct H as [Hval Hdom]. split.
  - intros p Hp. apply getLatestRun_In in Hp.
    destruct (Hval _ _ Hp) as (Hin & _ & Hmax). split; [exact Hin | exact Hmax].
  - intros q Hq. destruct (Hdom q Hq) as [p Hp].
    destruct (Hval _ _ Hp) as (_ & Hlv & _).
    exists p. split; [|exact Hlv].
    apply getLatestRun_In. rewrite Hlv. exact Hp.
Qed.

(** X17. On a history without a repeated level, [getLatestRun] only
    sorts by level. *)
Theorem getLatestRun_without_repeats (ps : list progression) :
  NoDup (List.map level ps) ->
  LatestRun.getLatestRun ps = sortBy cmpLevel ps.
Proof.
  intros Hnd. symmetry. apply getLatestRun_any_listing.
  set (m := fold_left LatestRun.keepLatest ps ∅).
  assert (Hm : LatestRun.keyed m).
  { apply fold_keepLatest_keyed. intros k x. rewrite lookup_empty. discriminate. }
  apply NoDup_Permutation.
  - apply (NoDup_fmap_1 level). exact Hnd.
  - apply (NoDup_fmap_1 level).
    change (NoDup (List.map level (List.map snd (map_to_list m)))).
    rewrite (keyed_values m Hm). apply NoDup_fst_map_to_list.
  - intros p. rewrite !list_elem_of_In. split.
    + intros Hp. apply (keyed_lookup m (level p) p Hm).
      apply fold_keepLatest_fresh; [exact Hnd | intros; apply lookup_empty|].
      left. split; [exact Hp | reflexivity].
    + intros Hp.
      assert (Hl : m !! level p = Some p)
        by (apply (keyed_lookup m (level p) p Hm); split; [exact Hp | reflexivity]).
      apply fold_keepLatest_fresh in Hl; [|exact Hnd | intros; apply lookup_empty].
      destruct Hl as [[Hin _] | Hl]; [exact Hin|].
      rewrite lookup_empty in Hl. discriminate.
Qed.

Lemma getLatestRun_without_repeats_witness :
  LatestRun.getLatestRun scenario = sortBy cmpLevel scenario.
Proof.
  apply (getLatestRun_without_repeats scenario).
  repeat (apply NoDup_cons; split; [rewrite list_elem_of_In; cbn; intuition lia|]).
  apply NoDup_nil. exact I.
Defined.

(** ** Next-level-up forecast: what the result is *)

Section NextLevelMore.

Variable tz : Z.
Variable now : Z.

Lemma remainingHours_nonneg (n : nat) : 0 <= remainingHours n.
Proof.
  destruct n as [|[|[|[|n]]]]; try (cbn; lia).
  unfold remainingHours. cbn [firstn SRS_INTERVALS_H skipn].
  destruct n; cbn; lia.
Qed.

Lemma isBlocking_stage (a : Assignment.data) :
  isBlocking a = true -> (Assignment.srs_stage a < 4)%N.
Proof.
  unfold isBlocking. rewrite !andb_true_iff, Z.ltb_lt. lia.
Qed.

(** The mastery date of a blocking item is a window later than now. *)
Lemma toGuru_blocking (a : Assignment.data) :
  isBlocking a = true ->
  exists v, guruDate (toGuru tz now a) = Some v /\ onWindow tz v /\ now < v.
Proof.
  intros Ha. apply isBlocking_stage in Ha. cbn [toGuru guruDate].
  set (avail := match Assignment.available_at a with Some t => t | None => now end).
  set (start := if avail <=? now then now else avail).
  assert (Hstart : now <= start).
  { unfold start. destruct (Z.leb_spec avail now); lia. }
  destruct (simulateToGuru_bounds tz (Z.to_nat (4 - Z.of_N (Assignment.srs_stage a)))
              start (Z.of_N (Assignment.srs_stage a)) ltac:(lia) eq_refl)
    as (w & Hw & Hlo & Hwin).
  destruct (Hwin ltac:(lia)) as [Hon Hlt].
  exists w. split; [exact Hw|]. split; [exact Hon|].
  pose proof (remainingHours_nonneg (Z.to_nat (Z.of_N (Assignment.srs_stage a)))).
  unfold msPerHour in *. nia.
Qed.

(** When something blocks, [levelUpDate] is the mastery date of one of
    the blocking items. *)
Lemma levelUpDate_of_blocking (assignments : list Assignment.data) :
  List.filter isBlocking assignments <> [] ->
  exists a, In a (List.filter isBlocking assignments) /\
            levelUpDate (computeNextLevel tz now assignments) =
            guruDate (toGuru tz now a).
Proof.
  intros Hb.
  destruct (List.filter isKanji (List.filter isBlocking assignments)) as [|k ks] eqn:Ek.
  - destruct (levelUpDate_radicals tz now assignments Hb Ek) as (m & Hm & Hin & _).
    apply in_map_iff in Hin as (a & Ha & Hin).
    apply filter_In in Hin as [Hin _].
    exists a. split; [exact Hin | congruence].
  - destruct (levelUpDate_kanji tz now assignments Hb) as (s & v & Hp & _ & Hn & Hv).
    { rewrite Ek. discriminate. }
    assert (Hin : In (Some v) (List.map Some s)) by (apply in_map; eapply nth_error_In, Hn).
    apply (Permutation_in _ Hp) in Hin.
    apply in_map_iff in Hin as (a & Ha & Hin).
    apply filter_In in Hin as [Hin _].
    exists a. split; [exact Hin | congruence].
Qed.

End NextLevelMore.

(** X18. When the clock and the due dates of the assignments are at
    least 30 days inside the range of [Date], the [levelUpDate] of
    [computeNextLevel] is a valid instant on a review window, strictly
    later than now, whether something blocks or not. *)
Theorem computeNextLevel_levelUp_on_window
    (tz now : Z) (assignments : list Assignment.data) :
  within (30 * msPerDay) now ->
  List.Forall (dueWithin (30 * msPerDay)) assignments ->
  exists v, levelUpDate (computeNextLevel tz now assignments) = Some v /\
            onWindow tz v /\ now < v.
Proof.
  intros _ _.
  destruct (List.filter isBlocking assignments) as [|b bs] eqn:Eb.
  - exists (firstWindowAfter tz now). unfold computeNextLevel. rewrite Eb.
    cbn [length Nat.eqb levelUpDate]. rewrite nextWindow_valid.
    split; [reflexivity|].
    split; [apply firstWindowAfter_onWindow | apply firstWindowAfter_later].
  - destruct (levelUpDate_of_blocking tz now assignments) as (a & Ha & ->).
    { rewrite Eb. discriminate. }
    apply toGuru_blocking. apply filter_In in Ha as [_ Ha]. exact Ha.
Qed.

Lemma computeNextLevel_levelUp_on_window_witness :
  exists v, levelUpDate (computeNextLevel 0 0 sampleAssignments) = Some v /\
            onWindow 0 v /\ 0 < v.
Proof.
  apply (computeNextLevel_levelUp_on_window 0 0 sampleAssignments).
  - unfold within, maxTime, msPerDay. lia.
  - repeat constructor; unfold within, maxTime, msPerDay, msPerHour; lia.
Defined.

Section CriticalItemFacts.

Variable tz : Z.
Variable now : Z.
Variable assignments : list Assignment.data.




End CriticalItemFacts.








(** ** Speed-up decomposition: accuracy and losses *)

Section SpeedupMore.

Lemma tally_from (reviewStats : list reviewStat) :
  forall c i,
    fold_left
      (fun acc rs =>
         (fst acc + (meaning_correct rs + reading_correct rs),
          snd acc + (meaning_incorrect rs + reading_incorrect rs)))
      reviewStats (c, i)
    = (c + sumOf correctOf reviewStats, i + sumOf wrongOf reviewStats).
Proof.
  induction reviewStats as [|d l IH]; intros c i; cbn [fold_left sumOf fold_right fst snd].
  - f_equal; lia.
  - rewrite IH. unfold sumOf, correctOf, wrongOf. f_equal; lia.
Qed.

Lemma tally_sums (reviewStats : list reviewStat) :
  tally reviewStats = (sumOf correctOf reviewStats, sumOf wrongOf reviewStats).
Proof. unfold tally. rewrite tally_from. reflexivity. Qed.

Lemma sumOf_nonneg (f : reviewStat -> Z) (l : list reviewStat) :
  Forall (fun d => 0 <= f d) l -> 0 <= sumOf f l.
Proof.
  induction 1 as [|d l Hd Hl IH]; cbn; [lia|].
  fold (sumOf f l). lia.
Qed.

Lemma counts_sums (l : list reviewStat) :
  Forall counts l -> 0 <= sumOf correctOf l /\ 0 <= sumOf wrongOf l.
Proof.
  intros H. split; apply sumOf_nonneg; eapply Forall_impl; try exact H;
    intros d (H1 & H2 & H3 & H4); unfold correctOf, wrongOf; lia.
Qed.

(** The accuracy and the per-level cost of mistakes from the two
    totals, as both revisions of [computeSpeedup(reviewStats)] compute
    them. *)
Lemma accuracy_cost (correct incorrect : Z) :
  0 <= correct -> 0 <= incorrect ->
  let total := correct + incorrect in
  let accuracy :=
    (if 0 <? total then inject_Z correct / inject_Z total * 100 else 100)%Q in
  let extraDays :=
    ((if 0 <? total then inject_Z incorrect / inject_Z total else 0) * 100 * 20.5 / 24)%Q in
  (0 <= accuracy <= 100 /\
   ((incorrect = 0)%Z -> accuracy == 100) /\
   extraDays == (100 - accuracy) * 20.5 / 24)%Q.
Proof.
  intros Hc Hi total accuracy extraDays. subst accuracy extraDays.
  destruct (Z.ltb_spec 0 total) as [Hpos | Hzero].
  - assert (Ht : (0 < inject_Z total)%Q)
      by (change 0%Q with (inject_Z 0); rewrite <- Zlt_Qlt; exact Hpos).
    assert (Hsum : (inject_Z total == inject_Z correct + inject_Z incorrect)%Q)
      by (unfold total; rewrite inject_Z_plus; reflexivity).
    assert (Hc' : (0 <= inject_Z correct)%Q)
      by (change 0%Q with (inject_Z 0); rewrite <- Zle_Qle; exact Hc).
    assert (Hi' : (0 <= inject_Z incorrect)%Q)
      by (change 0%Q with (inject_Z 0); rewrite <- Zle_Qle; exact Hi).
    assert (Hratio : (0 <= inject_Z correct / inject_Z total <= 1)%Q).
    { split.
      - apply Qle_shift_div_l; [exact Ht | lra].
      - apply Qle_shift_div_r; [exact Ht | lra]. }
    split; [lra|]. split.
    + intros ->. assert (E : (inject_Z correct == inject_Z total)%Q) by (rewrite Hsum; change (inject_Z 0) with 0%Q; lra).
      rewrite E. field. lra.
    + assert (E : (inject_Z incorrect == inject_Z total - inject_Z correct)%Q) by lra.
      rewrite E. field. lra.
  - split; [lra|]. split; [reflexivity | reflexivity].
Qed.

End SpeedupMore.

(** X22. With counters that are counts, the [accuracy] of
    [computeSpeedup] lies between 0 and 100 and is 100 when there is no
    wrong answer (also when there is no answer at all), [total] and
    [incorrect] are the sums of the counters, and the cost of mistakes is
    tied to the accuracy: [extraDaysPerLevel] is [(100 - accuracy) * 20.5
    / 24] days. *)
Theorem computeSpeedup_accuracy
    (tz : Z) (g : globals) (now : Z) (reviewStats : list reviewStat) (r : speedup) :
  Forall counts reviewStats ->
  computeSpeedup tz g now reviewStats = Some r ->
  total r = sumOf correctOf reviewStats + sumOf wrongOf reviewStats /\
  incorrect r = sumOf wrongOf reviewStats /\
  (0 <= accuracy r <= 100 /\
   ((incorrect r = 0)%Z -> accuracy r == 100) /\
   extraDaysPerLevel r == (100 - accuracy r) * 20.5 / 24)%Q.
Proof.
  intros Hcnt. unfold computeSpeedup. rewrite tally_sums.
  destruct (_stats g) as [st|]; [|discriminate]. intros [= <-].
  cbn [total incorrect accuracy extraDaysPerLevel].
  destruct (counts_sums reviewStats Hcnt) as [Hc Hi].
  split; [reflexivity|]. split; [reflexivity|].
  apply (accuracy_cost _ _ Hc Hi).
Qed.

Lemma computeSpeedup_accuracy_witness :
  exists r, computeSpeedup 0 (scenarioGlobals 10) 0 sampleReviewStats = Some r /\
            (0 <= accuracy r <= 100)%Q.
Proof.
  eexists. split; [reflexivity|].
  apply (computeSpeedup_accuracy 0 (scenarioGlobals 10) 0 sampleReviewStats);
    [|reflexivity].
  repeat constructor; cbn; lia.
Defined.

(** X23. [computeSpeedup] throws ([None]) when the global [_stats] is
    not set, on the read of [_stats.median].  With [_stats] set and the
    clock at least 30 days inside the range of [Date], its window loss is
    a number that is never negative and at most [max(0, median - 164 /
    24)]; it is 0 as soon as the median pace is within 164 / 24 days, the
    SRS intervals of a level. *)
Theorem computeSpeedup_window_loss
    (tz : Z) (g : globals) (now : Z) (reviewStats : list reviewStat) :
  (_stats g = None -> computeSpeedup tz g now reviewStats = None) /\
  (forall st, _stats g = Some st ->
     within (30 * msPerDay) now ->
     exists r w, computeSpeedup tz g now reviewStats = Some r /\
                 windowLostPerLevel r = Some w /\
                 (0 <= w /\ w <= Qmax 0 (median st - 164 / 24) /\
                  (median st <= 164 / 24 -> w == 0))%Q).
Proof.
  unfold computeSpeedup.
  destruct (windowDaysPerLevel_above_intervals tz g now) as (days & -> & Hd).
  destruct (tally reviewStats) as [c i]. split.
  - intros ->. reflexivity.
  - intros st -> _. eexists. eexists. split; [reflexivity|].
    cbn [windowLostPerLevel max0]. split; [reflexivity|].
    split; [apply Q.le_max_l|]. split.
    + apply Q.max_le_compat_l. lra.
    + intros Hm. apply Q.max_l. lra.
Qed.

Lemma computeSpeedup_window_loss_witness :
  exists r w, computeSpeedup 0 (scenarioGlobals 10) 0 [] = Some r /\
              windowLostPerLevel r = Some w /\ (0 <= w)%Q.
Proof.
  destruct (computeSpeedup_window_loss 0 (scenarioGlobals 10) 0 []) as [_ H].
  destruct (H scenarioStats eq_refl) as (r & w & H1 & H2 & H3 & _).
  - unfold within, maxTime, msPerDay. lia.
  - exists r, w. split; [exact H1|]. split; [exact H2 | exact H3].
Defined.

(** ** Speed-up decomposition: the blended revision *)

Section BlendedMore.

Import Blended.

Local Open Scope Q_scope.

(** The number of leeches: review statistics with four or more wrong
    answers. *)
Lemma totals_from (reviewStats : list reviewStat) :
  forall t,
    let t' := fold_left addReviewStat reviewStats t in
    totalMeaningIncorrect t' =
      (totalMeaningIncorrect t + sumOf meaning_incorrect reviewStats)%Z /\
    totalReadingIncorrect t' =
      (totalReadingIncorrect t + sumOf reading_incorrect reviewStats)%Z /\
    totalMeaningCorrect t' =
      (totalMeaningCorrect t + sumOf meaning_correct reviewStats)%Z /\
    totalReadingCorrect t' =
      (totalReadingCorrect t + sumOf reading_correct reviewStats)%Z /\
    totalExtraHours t' ==
      totalExtraHours t + inject_Z (sumOf wrongOf reviewStats) * 20.5 /\
    leechCount t' =
      (leechCount t +
       Z.of_nat (length (List.filter (fun d => (4 <=? wrongOf d)%Z) reviewStats)))%Z.
Proof.
  induction reviewStats as [|d l IH]; intros t; cbn [fold_left].
  - cbn. repeat split; try lia. change (inject_Z 0) with 0. lra.
  - specialize (IH (addReviewStat t d)). cbv zeta in IH.
    destruct IH as (H1 & H2 & H3 & H4 & H5 & H6).
    cbn [addReviewStat totalMeaningIncorrect totalReadingIncorrect
         totalMeaningCorrect totalReadingCorrect totalExtraHours leechCount]
      in H1, H2, H3, H4, H5, H6.
    cbv zeta. unfold sumOf in *. cbn [fold_right List.filter].
    repeat split; try lia.
    + rewrite H5. unfold AVG_EXTRA_HOURS_PER_MISTAKE, wrongOf.
      rewrite !inject_Z_plus. ring.
    + rewrite H6. unfold wrongOf.
      destruct (Z.leb_spec 4 (meaning_incorrect d + reading_incorrect d));
        cbn [length]; lia.
Qed.

Lemma sumOf_plus (f g : reviewStat -> Z) (l : list reviewStat) :
  (sumOf (fun d => f d + g d) l = sumOf f l + sumOf g l)%Z.
Proof.
  induction l as [|d l IH]; cbn; [reflexivity|].
  fold (sumOf (fun d => (f d + g d)%Z) l) (sumOf f l) (sumOf g l). lia.
Qed.

End BlendedMore.

Section BlendedResult.

Import Blended.

Local Open Scope Q_scope.

Variable currentLevel : Z.
Variable reviewStats : list reviewStat.
Variable stats : paceStats.

(** The fields of the result in terms of the sums of the counters. *)
Lemma blended_fields :
  let r := computeSpeedup currentLevel reviewStats stats in
  let wrong := sumOf wrongOf reviewStats in
  let answers := (sumOf correctOf reviewStats + sumOf wrongOf reviewStats)%Z in
  totalWrong r = wrong /\
  totalAnswers r = answers /\
  leechCountOut r =
    Z.of_nat (length (List.filter (fun d => (4 <=? wrongOf d)%Z) reviewStats)) /\
  overallAcc r =
    (if (0 <? answers)%Z
     then inject_Z (answers - wrong) / inject_Z answers * 100 else 100) /\
  windowLostPerLevel r = Qmax 0 (median stats - MINIMUM_DAYS_PER_LEVEL) /\
  windowSavingTotal r = windowLostPerLevel r * inject_Z (60 - currentLevel) /\
  mistakeSavingTotal r = mistakeDaysLostPerLevel r * inject_Z (60 - currentLevel) /\
  combinedSaving r =
    Qmax (windowSavingTotal r) (mistakeSavingTotal r) +
    Qmin (windowSavingTotal r) (mistakeSavingTotal r) * 0.4 /\
  (done stats = [] -> mistakeDaysLostPerLevel r = 0) /\
  (done stats <> [] ->
   mistakeDaysLostPerLevel r * lengthQ (done stats) == inject_Z wrong * 20.5 / 24).
Proof.
  intros r wrong answers. subst r. unfold computeSpeedup. cbv zeta.
  destruct (totals_from reviewStats
              {| totalMeaningIncorrect := 0; totalReadingIncorrect := 0;
                 totalMeaningCorrect := 0; totalReadingCorrect := 0;
                 totalExtraHours := 0; leechCount := 0 |})
    as (H1 & H2 & H3 & H4 & H5 & H6).
  cbv zeta in H1, H2, H3, H4, H5, H6.
  cbn [totalMeaningIncorrect totalReadingIncorrect totalMeaningCorrect
       totalReadingCorrect totalExtraHours leechCount] in H1, H2, H3, H4, H5, H6.
  set (t := fold_left addReviewStat reviewStats _) in *.
  cbn [totalWrong totalAnswers leechCountOut overallAcc windowLostPerLevel
       windowSavingTotal mistakeSavingTotal combinedSaving mistakeDaysLostPerLevel].
  assert (Hw : (totalMeaningIncorrect t + totalReadingIncorrect t)%Z = wrong).
  { rewrite H1, H2. unfold wrong, wrongOf. rewrite sumOf_plus. lia. }
  assert (Ha : (totalMeaningCorrect t + totalReadingCorrect t +
                totalMeaningIncorrect t + totalReadingIncorrect t)%Z = answers).
  { rewrite H1, H2, H3, H4. unfold answers, correctOf, wrongOf.
    rewrite !sumOf_plus. lia. }
  rewrite Hw, Ha.
  split; [reflexivity|]. split; [reflexivity|]. split; [rewrite H6; lia|].
  split; [reflexivity|]. split; [reflexivity|]. split; [reflexivity|].
  split; [reflexivity|]. split; [reflexivity|]. split.
  - intros ->. reflexivity.
  - intros Hd.
    assert (Hpos : (0 < length (done stats))%nat)
      by (destruct (done stats); [contradiction | cbn; lia]).
    destruct (Nat.ltb_spec 0 (length (done stats))) as [_ | ?]; [|lia].
    assert (HL : 0 < lengthQ (done stats)).
    { unfold lengthQ. change 0 with (inject_Z 0). rewrite <- Zlt_Qlt. lia. }
    rewrite H5. unfold wrong. field. lra.
Qed.

End BlendedResult.

(** X24. In the blended [computeSpeedup], [totalWrong] and
    [totalAnswers] are the sums of the wrong and of all answers, with
    [0 <= totalWrong <= totalAnswers] for counters that are counts;
    [leechCount] is the number of review statistics with four or more
    wrong answers; and the overall accuracy lies between 0 and 100, being
    100 when there is no wrong answer (also without any answer). *)
Theorem blended_totals_accuracy
    (currentLevel : Z) (reviewStats : list reviewStat) (stats : paceStats) :
  Forall counts reviewStats ->
  let r := Blended.computeSpeedup currentLevel reviewStats stats in
  Blended.totalWrong r = sumOf wrongOf reviewStats /\
  Blended.totalAnswers r = sumOf correctOf reviewStats + sumOf wrongOf reviewStats /\
  0 <= Blended.totalWrong r <= Blended.totalAnswers r /\
  Blended.leechCountOut r =
    Z.of_nat (length (List.filter (fun d => 4 <=? wrongOf d) reviewStats)) /\
  (0 <= Blended.overallAcc r <= 100)%Q /\
  (Blended.totalWrong r = 0 -> (Blended.overallAcc r == 100)%Q).
Proof.
  intros Hcnt r.
  destruct (blended_fields currentLevel reviewStats stats)
    as (Hw & Ha & Hl & Hacc & _).
  fold r in Hw, Ha, Hl, Hacc.
  destruct (counts_sums reviewStats Hcnt) as [Hc Hi].
  rewrite Hw, Ha, Hl, Hacc.
  split; [reflexivity|]. split; [reflexivity|]. split; [lia|]. split; [reflexivity|].
  set (c := sumOf correctOf reviewStats) in *. set (w := sumOf wrongOf reviewStats) in *.
  replace (c + w - w) with c by lia.
  destruct (accuracy_cost c w Hc Hi) as (Hb & Hz & _). cbv zeta in Hb, Hz.
  split; [exact Hb | exact Hz].
Qed.

Lemma blended_totals_accuracy_witness :
  Blended.leechCountOut (Blended.computeSpeedup 32 sampleReviewStats scenarioStats) = 1.
Proof.
  destruct (blended_totals_accuracy 32 sampleReviewStats scenarioStats)
    as (_ & _ & _ & -> & _).
  - repeat constructor; cbn; lia.
  - reflexivity.
Defined.

Lemma blended_losses_aux
    (currentLevel : Z) (reviewStats : list reviewStat) (stats : paceStats) :
  Forall counts reviewStats ->
  let r := Blended.computeSpeedup currentLevel reviewStats stats in
  (0 <= Blended.windowLostPerLevel r /\
   (median stats <= 3.42 -> Blended.windowLostPerLevel r == 0) /\
   0 <= Blended.mistakeDaysLostPerLevel r /\
   (done stats <> [] ->
    Blended.mistakeDaysLostPerLevel r * lengthQ (done stats) ==
    inject_Z (Blended.totalWrong r) * 20.5 / 24))%Q.
Proof.
  intros Hcnt r.
  destruct (blended_fields currentLevel reviewStats stats)
    as (Hw & _ & _ & _ & Hwin & _ & _ & _ & Hnil & Hdone).
  fold r in Hw, Hwin, Hnil, Hdone.
  destruct (counts_sums reviewStats Hcnt) as [_ Hi].
  rewrite Hwin, Hw. split; [apply Q.le_max_l|]. split.
  { intros Hm. apply Q.max_l. unfold Blended.MINIMUM_DAYS_PER_LEVEL. lra. }
  assert (Hcase : done stats = [] \/ done stats <> [])
    by (destruct (done stats); [left; reflexivity | right; discriminate]).
  split; [|exact Hdone].
  destruct Hcase as [E | Hne]; [rewrite (Hnil E); lra|].
  specialize (Hdone Hne).
  assert (HL : (0 < lengthQ (done stats))%Q).
  { unfold lengthQ. change 0%Q with (inject_Z 0). rewrite <- Zlt_Qlt.
    destruct (done stats); [contradiction | cbn; lia]. }
  assert (Hwq : (0 <= inject_Z (sumOf wrongOf reviewStats))%Q)
    by (change 0%Q with (inject_Z 0); rewrite <- Zle_Qle; exact Hi).
  set (m := Blended.mistakeDaysLostPerLevel r) in *.
  set (L := lengthQ (done stats)) in *.
  set (W := inject_Z (sumOf wrongOf reviewStats)) in *.
  destruct (Qlt_le_dec m 0) as [Hneg | Hpos]; [|exact Hpos].
  exfalso. assert (Hml : (m * L < 0)%Q) by nra.
  rewrite Hdone in Hml.
  assert (E : (W * 20.5 / 24 == W * (41 # 48))%Q) by field.
  rewrite E in Hml. lra.
Qed.

(** X25. The two per-level losses of the blended [computeSpeedup] are
    never negative (for counters that are counts); the window loss is 0
    when the median is within the 3.42-day minimum; and the mistake loss,
    taken over the completed levels, is 20.5 hours for each wrong answer:
    [mistakeDaysLostPerLevel * done.length = totalWrong * 20.5 / 24]. *)
Theorem blended_losses
    (currentLevel : Z) (reviewStats : list reviewStat) (stats : paceStats) :
  Forall counts reviewStats ->
  let r := Blended.computeSpeedup currentLevel reviewStats stats in
  (0 <= Blended.windowLostPerLevel r /\
   (median stats <= 3.42 -> Blended.windowLostPerLevel r == 0) /\
   0 <= Blended.mistakeDaysLostPerLevel r /\
   (done stats <> [] ->
    Blended.mistakeDaysLostPerLevel r * lengthQ (done stats) ==
    inject_Z (Blended.totalWrong r) * 20.5 / 24))%Q.
Proof.
  intros Hcnt r.
  exact (blended_losses_aux currentLevel reviewStats stats Hcnt).
Qed.

Lemma blended_losses_witness :
  (0 <= Blended.mistakeDaysLostPerLevel
          (Blended.computeSpeedup 32 sampleReviewStats scenarioStats))%Q.
Proof.
  destruct (blended_losses 32 sampleReviewStats scenarioStats) as (_ & _ & H & _).
  - repeat constructor; cbn; lia.
  - exact H.
Defined.

(** X26. While the current level is at most 60 (and the counters are
    counts), the combined saving is at least the larger of the two total
    savings and at most their sum, and it is never negative. *)
Theorem blended_combined_bounds
    (currentLevel : Z) (reviewStats : list reviewStat) (stats : paceStats) :
  Forall counts reviewStats ->
  currentLevel <= 60 ->
  let r := Blended.computeSpeedup currentLevel reviewStats stats in
  (0 <= Qmax (Blended.windowSavingTotal r) (Blended.mistakeSavingTotal r)
     <= Blended.combinedSaving r /\
   Blended.combinedSaving r
     <= Blended.windowSavingTotal r + Blended.mistakeSavingTotal r)%Q.
Proof.
  intros Hcnt Hlvl r.
  destruct (blended_losses_aux currentLevel reviewStats stats Hcnt) as (Hw & _ & Hm & _).
  destruct (blended_fields currentLevel reviewStats stats)
    as (_ & _ & _ & _ & _ & HwT & HmT & Hc & _).
  fold r in Hw, Hm, HwT, HmT, Hc.
  assert (Hleft : (0 <= inject_Z (60 - currentLevel))%Q)
    by (change 0%Q with (inject_Z 0); rewrite <- Zle_Qle; lia).
  assert (HwT0 : (0 <= Blended.windowSavingTotal r)%Q)
    by (rewrite HwT; apply Qmult_le_0_compat; assumption).
  assert (HmT0 : (0 <= Blended.mistakeSavingTotal r)%Q)
    by (rewrite HmT; apply Qmult_le_0_compat; assumption).
  rewrite Hc.
  set (a := Blended.windowSavingTotal r) in *.
  set (b := Blended.mistakeSavingTotal r) in *.
  destruct (Qlt_le_dec a b) as [Hab | Hba].
  - rewrite (Q.max_r a b), (Q.min_l a b) by lra. lra.
  - rewrite (Q.max_l a b), (Q.min_r a b) by lra. lra.
Qed.

Lemma blended_combined_bounds_witness :
  (Blended.combinedSaving (Blended.computeSpeedup 32 sampleReviewStats scenarioStats)
   <= Blended.windowSavingTotal (Blended.computeSpeedup 32 sampleReviewStats scenarioStats)
      + Blended.mistakeSavingTotal (Blended.computeSpeedup 32 sampleReviewStats scenarioStats))%Q.
Proof.
  destruct (blended_combined_bounds 32 sampleReviewStats scenarioStats) as [_ H].
  - repeat constructor; cbn; lia.
  - lia.
  - exact H.
Defined.

(** ** Level-completion forecast: order of the displayed dates *)

Section ForecastMore.

Local Open Scope Q_scope.






End ForecastMore.





(** X29. When the selected pace name is no property of the pace map,
    own or inherited, or the figure selected is zero, [updatePrediction]
    falls back on the median: the predicted date is the forecast at the
    median pace, and it is the median scenario date when the clock reads
    the same instant for both. *)
Theorem updatePrediction_pace_fallback
    (g : globals) (t1 t2 t3 t4 : Z) (st : paceStats) :
  _stats g = Some st ->
  paceMap st (_activePace g) = Undefined \/
  (exists v, paceMap st (_activePace g) = Number v /\ (v == 0)%Q) ->
  exists p, updatePredictionAt g t1 t2 t3 t4 = Some p /\
            predDate p = forecast (_currentLevel g) t1 (median st) /\
            (t1 = t3 -> predDate p = midDate p).
Proof.
  intros Hg Hk. unfold updatePredictionAt. rewrite Hg. cbv zeta.
  eexists. split; [reflexivity|]. cbn [predDate midDate].
  assert (Hp : addDays (Some t1)
                 (times (60 - _currentLevel g)
                    (orDefault (paceMap st (_activePace g)) (median st)))
               = forecast (_currentLevel g) t1 (median st)).
  { destruct Hk as [-> | (v & -> & Hv)]; [reflexivity|].
    cbn [orDefault times]. unfold orElse.
    apply Qeq_bool_iff in Hv. rewrite Hv. reflexivity. }
  split; [exact Hp|]. intros <-. exact Hp.
Qed.

Lemma updatePrediction_pace_fallback_witness :
  exists p,
    updatePredictionAt (Globals (Some (summarize twoAttempts)) 6 "weekly") 0 1 2 3
      = Some p /\
    predDate p = forecast 6 0 (median (summarize twoAttempts)).
Proof.
  destruct (updatePrediction_pace_fallback
              (Globals (Some (summarize twoAttempts)) 6 "weekly") 0 1 2 3
              (summarize twoAttempts)) as (p & H1 & H2 & _).
  - reflexivity.
  - left. reflexivity.
  - exists p. split; assumption.
Defined.
